(** * Workflow graph reconstruction of [architecture_analyzer.py]

    A shallow embedding of [ArchitectureAnalyzer._build_workflow_data]
    together with the part of [analyze_file] / [validate_yaml_fields] that
    decides [yaml_valid], and the properties of the built graph and of its
    statistics.

    Conventions of the embedding.
    - YAML scalars and containers are the inductive [value]; truthiness,
      hashability and [==] follow Python ([True == 1], lists and dicts are
      unhashable).  YAML floats, dates and binaries are outside the model.
    - Front matter has the annotated type [Optional[Dict[str, Any]]]: an
      optional finite map with string keys.
    - Python exceptions are explicit: every operation that can raise returns
      a [result].
    - [phases] is an insertion-ordered dict keyed by arbitrary hashable
      values: an association list searched with Python equality.
    - [/] on two ints is true division; its float result is represented by
      the exact rational (binary64 rounding is not modelled). *)

From Stdlib Require Import ZArith QArith String List Bool Lia Permutation.
From Stdlib Require Import Sorted.
From stdpp Require Import base option list gmap strings.

Open Scope string_scope.
Open Scope list_scope.
Open Scope nat_scope.

(** ** Python values and exceptions *)

#[local] Set Warnings "-register-all".

Inductive value : Type :=
| VNone
| VBool (b : bool)
| VInt (z : Z)
| VStr (s : string)
| VList (items : list value)
| VDict (entries : list (value * value)).

Inductive exn : Type :=
| TypeError
| AttributeError
| ZeroDivisionError.

Inductive result (A : Type) : Type :=
| Ok (a : A)
| Raise (e : exn).
Arguments Ok {A} a.
Arguments Raise {A} e.

Definition bind {A B : Type} (m : result A) (k : A -> result B) : result B :=
  match m with
  | Ok a => k a
  | Raise e => Raise e
  end.

Notation "'let!' x ':=' m 'in' k" := (bind m (fun x => k))
  (at level 10, x name, m at level 100, k at level 200).

(** [a or b] on fallible operands: [b] is evaluated only when [a] is false. *)
Definition por (a b : result bool) : result bool :=
  let! x := a in if x then Ok true else b.

(** A [for] loop whose body may raise; the state is what the body mutates. *)
Fixpoint for_each {S A : Type} (body : S -> A -> result S)
    (xs : list A) (st : S) : result S :=
  match xs with
  | [] => Ok st
  | x :: xs' => let! st' := body st x in for_each body xs' st'
  end.

(** [bool(v)] *)
Definition truthy (v : value) : bool :=
  match v with
  | VNone => false
  | VBool b => b
  | VInt z => negb (z =? 0)%Z
  | VStr s => negb (s =? "")%string
  | VList items => negb (Nat.eqb (length items) 0)
  | VDict entries => negb (Nat.eqb (length entries) 0)
  end.

(** [hash(v)] succeeds *)
Definition hashable (v : value) : bool :=
  match v with
  | VList _ | VDict _ => false
  | _ => true
  end.

Definition as_int (v : value) : option Z :=
  match v with
  | VBool b => Some (if b then 1 else 0)%Z
  | VInt z => Some z
  | _ => None
  end.

(** [a == b] on hashable values (the only ones compared by dict and set
    lookups); bools are ints. *)
Definition py_eq (a b : value) : bool :=
  match a, b with
  | VNone, VNone => true
  | VStr s, VStr t => (s =? t)%string
  | (VBool _ | VInt _), (VBool _ | VInt _) =>
      match as_int a, as_int b with
      | Some x, Some y => (x =? y)%Z
      | _, _ => false
      end
  | _, _ => false
  end.

(** [v.startswith(p)]: only [str] has the attribute. *)
Definition startswith (v : value) (p : string) : result bool :=
  match v with
  | VStr s => Ok (String.prefix p s)
  | _ => Raise AttributeError
  end.

(** [v in s] for a set [s] given by its elements. *)
Definition set_contains (v : value) (s : list value) : result bool :=
  if hashable v then Ok (existsb (py_eq v) s) else Raise TypeError.

(** ** File analysis records *)

Record FileAnalysis : Type := {
  filename : string;
  filepath : string;
  yaml_frontmatter : option (gmap string value);
  headers : list string;
  yaml_valid : bool;
  yaml_errors : list string;
  missing_required_fields : list string
}.

Definition REQUIRED_YAML_FIELDS : list string :=
  ["phase"; "step"; "task"; "task_id"; "title";
   "previous_task"; "next_task"; "version"; "agent"; "orchestrator"].

(** [bool(d)] for an optional dict: [None] and [{}] are false. *)
Definition truthy_dict (d : option (gmap string value)) : bool :=
  match d with
  | None => false
  | Some m => negb (Nat.eqb (size m) 0)
  end.

Definition is_none (v : value) : bool :=
  match v with VNone => true | _ => false end.

(** [field not in yaml_data or yaml_data[field] is None] *)
Definition field_missing (yaml_data : gmap string value) (field : string) : bool :=
  match yaml_data !! field with
  | None => true
  | Some v => is_none v
  end.

Definition validate_yaml_fields (yaml_data : option (gmap string value))
    : list string :=
  if negb (truthy_dict yaml_data) then REQUIRED_YAML_FIELDS
  else match yaml_data with
       | None => REQUIRED_YAML_FIELDS
       | Some m => List.filter (field_missing m) REQUIRED_YAML_FIELDS
       end.

(** [analyze_file] after the file was read: [parsed] is what
    [extract_yaml_frontmatter] returned, [hs] what [extract_headers] did. *)
Definition analyze_content (name path : string)
    (parsed : option (gmap string value) * list string) (hs : list string)
    : FileAnalysis :=
  let '(yaml_data, errors) := parsed in
  let missing_fields := validate_yaml_fields yaml_data in
  {| filename := name;
     filepath := path;
     yaml_frontmatter := yaml_data;
     headers := hs;
     yaml_valid := Nat.eqb (length errors) 0 && Nat.eqb (length missing_fields) 0;
     yaml_errors := errors;
     missing_required_fields := missing_fields |}.

(** [analyze_file] when reading the file raised. *)
Definition analyze_unreadable (name path err : string) : FileAnalysis :=
  {| filename := name;
     filepath := path;
     yaml_frontmatter := None;
     headers := [];
     yaml_valid := false;
     yaml_errors := [String.append "Error reading file: " err];
     missing_required_fields := REQUIRED_YAML_FIELDS |}.

(** ** The workflow graph *)

Record task_info : Type := {
  t_filename : string;
  task_id : value;
  title : value;
  phase : value;
  step : value;
  agent : value;
  previous_task : value;
  next_task : value;
  valid : bool
}.

(** Python numbers of the statistics: [0] is an int, a quotient is a float. *)
Inductive number : Type :=
| Int (z : Z)
| Float (q : Q).

Record statistics : Type := {
  total_tasks : nat;
  connected_tasks : nat;
  orphaned_tasks : nat;
  phases_count : nat;
  valid_tasks : nat;
  completion_rate : number
}.

Record workflow_data : Type := {
  phases : list (value * list task_info);
  orphaned : list task_info;
  stats : statistics
}.

(** [d.get(k, default)] *)
Definition dict_get (d : gmap string value) (k : string) (dflt : value) : value :=
  default dflt (d !! k).

Definition unknown : value := VStr "Unknown".

Definition extract_task_info (file_data : FileAnalysis)
    (yaml_data : gmap string value) : task_info :=
  {| t_filename := filename file_data;
     task_id := dict_get yaml_data "task_id" unknown;
     title := dict_get yaml_data "title" unknown;
     phase := dict_get yaml_data "phase" unknown;
     step := dict_get yaml_data "step" unknown;
     agent := dict_get yaml_data "agent" unknown;
     previous_task := dict_get yaml_data "previous_task" VNone;
     next_task := dict_get yaml_data "next_task" VNone;
     valid := yaml_valid file_data |}.

(** [k in d] for the ordered dict [d]. *)
Definition dict_contains {V : Type} (k : value) (d : list (value * V)) : result bool :=
  if hashable k then Ok (existsb (fun kv => py_eq k (fst kv)) d)
  else Raise TypeError.

(** [d[k].append(t)] for a key that is present. *)
Fixpoint dict_append {V : Type} (k : value) (t : V) (d : list (value * list V))
    : list (value * list V) :=
  match d with
  | [] => []
  | (k', ts) :: d' =>
      if py_eq k k' then (k', ts ++ [t]) :: d'
      else (k', ts) :: dict_append k t d'
  end.

(** The mutable locals of the first loop. *)
Record scan_state : Type := {
  s_phases : list (value * list task_info);
  s_valid_tasks : nat;
  s_connected_tasks : nat
}.

Definition scan_init : scan_state :=
  {| s_phases := []; s_valid_tasks := 0; s_connected_tasks := 0 |}.

(** Body of [for file_data in files_data]. *)
Definition scan_file (st : scan_state) (file_data : FileAnalysis)
    : result scan_state :=
  if negb (yaml_valid file_data) || negb (truthy_dict (yaml_frontmatter file_data))
  then Ok st
  else
    match yaml_frontmatter file_data with
    | None => Ok st
    | Some yaml_data =>
        let task := extract_task_info file_data yaml_data in
        let valid_tasks :=
          if valid task then S (s_valid_tasks st) else s_valid_tasks st in
        let connected_tasks :=
          if truthy (previous_task task) || truthy (next_task task)
          then S (s_connected_tasks st) else s_connected_tasks st in
        let! present := dict_contains (phase task) (s_phases st) in
        let phases1 :=
          if present then s_phases st else s_phases st ++ [(phase task, [])] in
        Ok {| s_phases := dict_append (phase task) task phases1;
              s_valid_tasks := valid_tasks;
              s_connected_tasks := connected_tasks |}
    end.

(** [phases.values()] *)
Definition values {V : Type} (d : list (value * V)) : list V := map snd d.

(** [{task['task_id'] for phase_tasks in phases.values() for task in phase_tasks}] *)
Definition all_task_ids (d : list (value * list task_info)) : result (list value) :=
  let ids := map task_id (concat (values d)) in
  if forallb hashable ids then Ok ids else Raise TypeError.

Definition prev_exists (ids : list value) (task : task_info) : result bool :=
  por (Ok (negb (truthy (previous_task task))))
      (por (set_contains (previous_task task) ids)
           (startswith (previous_task task) "PHASE")).

Definition next_exists (ids : list value) (task : task_info) : result bool :=
  por (Ok (negb (truthy (next_task task))))
      (por (set_contains (next_task task) ids)
           (startswith (next_task task) "P")).

(** Body of [for task in phase_tasks]. *)
Definition check_task (ids : list value) (orph : list task_info) (task : task_info)
    : result (list task_info) :=
  let! p := prev_exists ids task in
  let! n := next_exists ids task in
  if negb (p && n) then Ok (orph ++ [task]) else Ok orph.

(** Body of [for phase_tasks in phases.values()]. *)
Definition check_phase (ids : list value) (orph : list task_info)
    (phase_tasks : list task_info) : result (list task_info) :=
  for_each (check_task ids) phase_tasks orph.

(** [sum(len(phase_tasks) for phase_tasks in phases.values())] *)
Definition sum_len {V : Type} (d : list (value * list V)) : nat :=
  fold_right Nat.add 0 (map (fun ts => length ts) (values d)).

(** [a / b] on ints. *)
Definition truediv (a b : nat) : result Q :=
  if Nat.eqb b 0 then Raise ZeroDivisionError
  else Ok (inject_Z (Z.of_nat a) / inject_Z (Z.of_nat b))%Q.

Definition compute_completion_rate (valid_count total : nat) : result number :=
  if Nat.ltb 0 total then
    let! q := truediv valid_count total in Ok (Float (q * 100)%Q)
  else Ok (Int 0).

Definition _build_workflow_data (files_data : list FileAnalysis)
    : result workflow_data :=
  let! st := for_each scan_file files_data scan_init in
  let! ids := all_task_ids (s_phases st) in
  let! orph := for_each (check_phase ids) (values (s_phases st)) [] in
  let total := sum_len (s_phases st) in
  let! rate := compute_completion_rate (s_valid_tasks st) total in
  Ok {| phases := s_phases st;
        orphaned := orph;
        stats := {| total_tasks := total;
                    connected_tasks := s_connected_tasks st;
                    orphaned_tasks := length orph;
                    phases_count := length (s_phases st);
                    valid_tasks := s_valid_tasks st;
                    completion_rate := rate |} |}.

(** ** Specification vocabulary *)

(** The entry filter of the first loop, read positively. *)
Definition admitted (file_data : FileAnalysis) : bool :=
  yaml_valid file_data && truthy_dict (yaml_frontmatter file_data).

(** The record a file contributes to the graph, if any. *)
Definition task_of (file_data : FileAnalysis) : option task_info :=
  if admitted file_data
  then option_map (extract_task_info file_data) (yaml_frontmatter file_data)
  else None.

Fixpoint admitted_tasks (files_data : list FileAnalysis) : list task_info :=
  match files_data with
  | [] => []
  | file_data :: rest =>
      match task_of file_data with
      | Some t => t :: admitted_tasks rest
      | None => admitted_tasks rest
      end
  end.

(** All records of the graph, phase group after phase group. *)
Definition flatten (d : list (value * list task_info)) : list task_info :=
  concat (values d).

Definition keys {V : Type} (d : list (value * V)) : list value := map fst d.

(** [task['previous_task'] or task['next_task']] *)
Definition connected (t : task_info) : bool :=
  truthy (previous_task t) || truthy (next_task t).

(** The grouping step of [scan_file] once the phase is known to hash. *)
Definition place (t : task_info) (d : list (value * list task_info))
    : list (value * list task_info) :=
  dict_append (phase t) t
    (if existsb (fun kv => py_eq (phase t) (fst kv)) d then d
     else d ++ [(phase t, [])]).

(** No two keys of a dict are equal in Python's sense. *)
Fixpoint keys_distinct (ks : list value) : bool :=
  match ks with
  | [] => true
  | k :: ks' => negb (existsb (py_eq k) ks') && keys_distinct ks'
  end.

(** Every record sits under the key its [phase] is equal to. *)
Definition filed_by_phase (d : list (value * list task_info)) : Prop :=
  Forall (fun kv => Forall (fun t => py_eq (phase t) (fst kv) = true) (snd kv)) d.

Definition grouped (d : list (value * list task_info)) : Prop :=
  keys_distinct (keys d) = true /\ filed_by_phase d.

(** The orphan test of the second loop, for records on which neither
    existence check raises. *)
Definition is_orphan (ids : list value) (t : task_info) : bool :=
  match prev_exists ids t, next_exists ids t with
  | Ok p, Ok n => negb (p && n)
  | _, _ => false
  end.

Definition checks_return (ids : list value) (t : task_info) : Prop :=
  exists p n, prev_exists ids t = Ok p /\ next_exists ids t = Ok n.

(** A reference the existence checks can always evaluate: falsy, or a string. *)
Definition plain_ref (v : value) : bool :=
  negb (truthy v) || match v with VStr _ => true | _ => false end.

(** Records as the data model describes them: hashable identity and phase,
    references absent or strings. *)
Definition well_typed (t : task_info) : bool :=
  hashable (phase t) && hashable (task_id t)
  && plain_ref (previous_task t) && plain_ref (next_task t).

(** A record that reached the builder without a front-matter record. *)
Definition carries_record (file_data : FileAnalysis) : bool :=
  truthy_dict (yaml_frontmatter file_data).

(** What one admitted record does to the locals of the first loop. *)
Definition scan_step (st : scan_state) (t : task_info) : scan_state :=
  {| s_phases := place t (s_phases st);
     s_valid_tasks := S (s_valid_tasks st);
     s_connected_tasks :=
       if connected t then S (s_connected_tasks st) else s_connected_tasks st |}.

(** ** Sample inputs *)

Definition front_matter (fields : list (string * value)) : gmap string value :=
  list_to_map fields.

(** A front matter with all ten required fields set. *)
Definition complete_front_matter (id ph prev next : value) : gmap string value :=
  front_matter
    [("phase", ph); ("step", VStr "1"); ("task", VStr "task"); ("task_id", id);
     ("title", VStr "title"); ("previous_task", prev); ("next_task", next);
     ("version", VStr "1.0"); ("agent", VStr "agent");
     ("orchestrator", VStr "orchestrator")].

(** What [analyze_file] returns for a readable file whose front matter
    parsed to [yaml_data]. *)
Definition parsed_file (name : string) (yaml_data : gmap string value)
    : FileAnalysis :=
  analyze_content name name (Some yaml_data, []) [].

(** Predecessor ["T99"] names no task; no successor. *)
Definition file_dangling : FileAnalysis :=
  parsed_file "t1.md"
    (complete_front_matter (VStr "T1") (VStr "1") (VStr "T99") (VStr "")).

(** Both references are the string ["P5"]. *)
Definition file_p5 : FileAnalysis :=
  parsed_file "t2.md"
    (complete_front_matter (VStr "T2") (VStr "1") (VStr "P5") (VStr "P5")).

(** Both references name the record itself. *)
Definition file_self : FileAnalysis :=
  parsed_file "t3.md"
    (complete_front_matter (VStr "T3") (VStr "2") (VStr "T3") (VStr "T3")).

(** Parsed front matter with eight required fields missing. *)
Definition incomplete_front_matter : gmap string value :=
  front_matter [("task_id", VStr "T4"); ("phase", VStr "1")].

Definition file_incomplete : FileAnalysis :=
  parsed_file "t4.md" incomplete_front_matter.

(** All required fields present, [phase] the empty string. *)
Definition empty_phase_front_matter : gmap string value :=
  complete_front_matter (VStr "T5") (VStr "") (VStr "") (VStr "").

Definition file_empty_phase : FileAnalysis :=
  parsed_file "t5.md" empty_phase_front_matter.

(** Nine required fields present, no [phase] key. *)
Definition missing_phase_front_matter : gmap string value :=
  front_matter
    [("step", VStr "1"); ("task", VStr "task"); ("task_id", VStr "T7");
     ("title", VStr "title"); ("previous_task", VStr ""); ("next_task", VStr "");
     ("version", VStr "1.0"); ("agent", VStr "agent");
     ("orchestrator", VStr "orchestrator")].

Definition file_missing_phase : FileAnalysis :=
  parsed_file "t7.md" missing_phase_front_matter.

(** A record handed to the builder as valid although it has no [phase] key
    ([analyze_file] itself never produces one). *)
Definition no_phase_front_matter : gmap string value :=
  front_matter [("task_id", VStr "T6")].

Definition file_no_phase : FileAnalysis :=
  {| filename := "t6.md";
     filepath := "t6.md";
     yaml_frontmatter := Some no_phase_front_matter;
     headers := [];
     yaml_valid := true;
     yaml_errors := [];
     missing_required_fields := [] |}.

Definition sample_files : list FileAnalysis :=
  [file_dangling; file_p5; file_self; file_incomplete].

(** ** The rest of the analysis of one file *)

(** A [str] is represented by its UTF-8 encoding (files are read with
    [encoding='utf-8']); a character is one to four bytes.  The ASCII
    characters are single bytes that occur in no other character, so
    splitting on a newline, removing ["##"], prefix tests and comparisons
    work on the bytes as they do on the characters. *)
Definition code (c : Ascii.ascii) : nat := Ascii.nat_of_ascii c.

(** [c.isspace()] for a character of one byte (the class [\s] of [re]
    agrees with [str.isspace]): tab to carriage return, the four separators
    28..31, and the space. *)
Definition is_space (c : Ascii.ascii) : bool :=
  let n := code c in
  (Nat.leb 9 n && Nat.leb n 13) || (Nat.leb 28 n && Nat.leb n 31) || Nat.eqb n 32.

(** Whitespace of two bytes: U+0085 (C2 85) and U+00A0 (C2 A0). *)
Definition is_space2 (c1 c2 : Ascii.ascii) : bool :=
  Nat.eqb (code c1) 194 && (Nat.eqb (code c2) 133 || Nat.eqb (code c2) 160).

(** Whitespace of three bytes: U+1680 (E1 9A 80); U+2000..U+200A
    (E2 80 80..8A), U+2028, U+2029 (E2 80 A8, A9), U+202F (E2 80 AF);
    U+205F (E2 81 9F); U+3000 (E3 80 80). *)
Definition is_space3 (c1 c2 c3 : Ascii.ascii) : bool :=
  (Nat.eqb (code c1) 225 && (Nat.eqb (code c2) 154 && Nat.eqb (code c3) 128))
  || (Nat.eqb (code c1) 226
      && ((Nat.eqb (code c2) 128
           && ((Nat.leb 128 (code c3) && Nat.leb (code c3) 138)
               || Nat.eqb (code c3) 168 || Nat.eqb (code c3) 169
               || Nat.eqb (code c3) 175))
          || (Nat.eqb (code c2) 129 && Nat.eqb (code c3) 159)))
  || (Nat.eqb (code c1) 227 && (Nat.eqb (code c2) 128 && Nat.eqb (code c3) 128)).

(** The number of bytes of the whitespace character a text starts with;
    0 when it starts with none. *)
Definition space_prefix (s : string) : nat :=
  match s with
  | EmptyString => 0
  | String c1 s1 =>
      if is_space c1 then 1
      else match s1 with
           | EmptyString => 0
           | String c2 s2 =>
               if is_space2 c1 c2 then 2
               else match s2 with
                    | EmptyString => 0
                    | String c3 _ => if is_space3 c1 c2 c3 then 3 else 0
                    end
           end
  end.

(** The text is exactly one whitespace character. *)
Definition is_space_char (s : string) : bool :=
  Nat.ltb 0 (space_prefix s) && Nat.eqb (space_prefix s) (String.length s).

(** [c == '#'] (code 35) *)
Definition is_hash (c : Ascii.ascii) : bool := Ascii.eqb c (Ascii.ascii_of_nat 35).

(** [c == '\n'] (code 10) *)
Definition is_newline (c : Ascii.ascii) : bool := Ascii.eqb c (Ascii.ascii_of_nat 10).

(** [s.lstrip()]: drop whitespace characters from the left. *)
Fixpoint lstrip (s : string) : string :=
  match s with
  | EmptyString => EmptyString
  | String _ s1 =>
      match space_prefix s with
      | 0 => s
      | 1 => lstrip s1
      | 2 => match s1 with
             | String _ s2 => lstrip s2
             | EmptyString => s
             end
      | _ => match s1 with
             | String _ (String _ s3) => lstrip s3
             | _ => s
             end
      end
  end.

(** [s.rstrip()]: the text is stripped from its end towards its start; once
    the rest is stripped, a whitespace character can only end the text if
    it is the whole of it. *)
Fixpoint rstrip (s : string) : string :=
  match s with
  | EmptyString => EmptyString
  | String c s' =>
      let r := String c (rstrip s') in
      if is_space_char r then EmptyString else r
  end.

(** [s.strip()] *)
Definition strip (s : string) : string := rstrip (lstrip s).

(** [s.replace('##', '')]: occurrences are found from the left and do not
    overlap. *)
Fixpoint remove_double_hash (s : string) : string :=
  match s with
  | EmptyString => EmptyString
  | String c s' =>
      match s' with
      | String c' s'' =>
          if is_hash c && is_hash c' then remove_double_hash s''
          else String c (remove_double_hash s')
      | EmptyString => String c EmptyString
      end
  end.

(** [s.split('\n')] *)
Fixpoint split_lines (s : string) : list string :=
  match s with
  | EmptyString => [EmptyString]
  | String c s' =>
      if is_newline c then EmptyString :: split_lines s'
      else match split_lines s' with
           | line :: lines => String c line :: lines
           | [] => [String c EmptyString]
           end
  end.

(** [re.match(r'^##\s+', line)] finds a match. *)
Definition is_level2_header (line : string) : bool :=
  match line with
  | String c1 (String c2 rest) =>
      is_hash c1 && is_hash c2 && Nat.ltb 0 (space_prefix rest)
  | _ => false
  end.

(** [line.strip().replace('##', '').strip()] *)
Definition header_text (line : string) : string :=
  strip (remove_double_hash (strip line)).

Definition extract_headers (content : string) : list string :=
  map header_text (List.filter is_level2_header (split_lines content)).

(** [extract_yaml_frontmatter].  The regular-expression search and the YAML
    loader are library calls, taken as parameters: [re_match content] is
    group 1 of [re.match(r'^---\s*\n(.*?)\n---\s*\n', content, re.DOTALL)]
    when there is a match; [safe_load text] is the loaded document (a
    mapping or [None], as the return annotation says), or the text of the
    [YAMLError] it raised.  This and [analyze_file] below are the functions
    at their annotated type; [analyze_file_any] further down follows the
    same code on every node the loader can return. *)
Definition extract_yaml_frontmatter
    (re_match : string -> option string)
    (safe_load : string -> string + option (gmap string value))
    (content : string) : option (gmap string value) * list string :=
  if negb (String.prefix "---" (strip content))
  then (None, ["No YAML front matter found"])
  else
    match re_match content with
    | None => (None, ["Invalid YAML front matter format"])
    | Some yaml_content =>
        match safe_load yaml_content with
        | inr yaml_data => (yaml_data, [])
        | inl e => (None, [String.append "YAML parsing error: " e])
        end
    end.

(** [analyze_file]; [read] is the content of the file, or the text of the
    exception raised while opening or reading it. *)
Definition analyze_file
    (re_match : string -> option string)
    (safe_load : string -> string + option (gmap string value))
    (name path : string) (read : string + string) : FileAnalysis :=
  match read with
  | inl e => analyze_unreadable name path e
  | inr content =>
      analyze_content name path
        (extract_yaml_frontmatter re_match safe_load content)
        (extract_headers content)
  end.

(** ** [analyze_file] on any loaded document *)

(** [yaml.safe_load] returns whatever node the text denotes, not only a
    mapping or [None].  The definitions of this part follow
    [validate_yaml_fields], [extract_yaml_frontmatter] and [analyze_file] on
    every node the safe loader constructs.  The functions can raise here:
    the membership test and the subscript of [validate_yaml_fields] are
    applied to whatever was loaded, and an exception of the loader that is
    not a [YAMLError] is not caught. *)

(** A [float]: a finite number, [.inf] or [-.inf], or [.nan]. *)
Inductive yaml_float : Type :=
| FFinite (q : Q)
| FInfinite (negative : bool)
| FNaN.

(** The objects the safe loader constructs: [None], [bool], [int], [float],
    [str], [bytes] (tag [!!binary]), [datetime.date] and [datetime.datetime]
    (written as the timestamp's text), [list], a list of 2-tuples (tags
    [!!omap] and [!!pairs]), [set] (tag [!!set]) and [dict]. *)
Inductive node : Type :=
| NNone
| NBool (b : bool)
| NInt (z : Z)
| NFloat (x : yaml_float)
| NStr (s : string)
| NBytes (bs : string)
| NTimestamp (iso : string)
| NSeq (items : list node)
| NPairs (pairs : list (node * node))
| NSet (items : list node)
| NMap (entries : list (node * node)).

(** What [safe_load] does with a text: it returns a node, raises a
    [YAMLError] (given by its text), or raises another exception (given by
    its name; a timestamp with month 13 raises [ValueError]). *)
Inductive load_result : Type :=
| Loaded (doc : node)
| YAMLError (msg : string)
| OtherException (name : string).

(** [bool(d)] *)
Definition node_truthy (d : node) : bool :=
  match d with
  | NNone => false
  | NBool b => b
  | NInt z => negb (z =? 0)%Z
  | NFloat (FFinite q) => negb (Qeq_bool q 0)
  | NFloat _ => true
  | NStr s | NBytes s => negb (s =? "")%string
  | NTimestamp _ => true
  | NSeq items | NSet items => negb (Nat.eqb (length items) 0)
  | NPairs entries | NMap entries => negb (Nat.eqb (length entries) 0)
  end.

Definition node_is_none (d : node) : bool :=
  match d with NNone => true | _ => false end.

(** [field == d] for a string [field]: only a [str] is equal to a [str]. *)
Definition str_eq_node (field : string) (d : node) : bool :=
  match d with
  | NStr s => (field =? s)%string
  | _ => false
  end.

(** [p in s] for two strings *)
Definition is_substring (p s : string) : bool :=
  match String.index 0 p s with
  | Some _ => true
  | None => false
  end.

(** The value a mapping holds under the string key [field]. *)
Definition node_lookup (entries : list (node * node)) (field : string)
    : option node :=
  option_map snd (List.find (fun kv => str_eq_node field (fst kv)) entries).

(** [field not in yaml_data or yaml_data[field] is None].  In a string
    [in] is the substring test, in a list or a set the element test (no
    2-tuple is equal to a string); the subscript by a string that follows a
    successful test raises [TypeError] on all three.  [bytes] refuse a [str]
    operand of [in], and the other objects have no [in]. *)
Definition node_field_missing (yaml_data : node) (field : string) : result bool :=
  match yaml_data with
  | NMap entries =>
      match node_lookup entries field with
      | None => Ok true
      | Some v => Ok (node_is_none v)
      end
  | NStr s => if is_substring field s then Raise TypeError else Ok true
  | NSeq items | NSet items =>
      if existsb (str_eq_node field) items then Raise TypeError else Ok true
  | NPairs _ => Ok true
  | NNone | NBool _ | NInt _ | NFloat _ | NBytes _ | NTimestamp _ =>
      Raise TypeError
  end.

(** Body of [for field in self.REQUIRED_YAML_FIELDS]. *)
Definition check_field (yaml_data : node) (missing_fields : list string)
    (field : string) : result (list string) :=
  let! missing := node_field_missing yaml_data field in
  Ok (if missing then missing_fields ++ [field] else missing_fields).

Definition validate_yaml_fields_any (yaml_data : node) : result (list string) :=
  if negb (node_truthy yaml_data) then Ok REQUIRED_YAML_FIELDS
  else for_each (check_field yaml_data) REQUIRED_YAML_FIELDS [].

(** [extract_yaml_frontmatter]: the pair it returns, or the name of the
    exception of the loader that passes through it. *)
Definition extract_yaml_frontmatter_any
    (re_match : string -> option string)
    (safe_load : string -> load_result)
    (content : string) : string + node * list string :=
  if negb (String.prefix "---" (strip content))
  then inr (NNone, ["No YAML front matter found"])
  else
    match re_match content with
    | None => inr (NNone, ["Invalid YAML front matter format"])
    | Some yaml_content =>
        match safe_load yaml_content with
        | Loaded yaml_data => inr (yaml_data, [])
        | YAMLError e => inr (NNone, [String.append "YAML parsing error: " e])
        | OtherException name => inl name
        end
    end.

(** A [FileAnalysis] whose front matter is any node. *)
Record LoadedAnalysis : Type := {
  l_filename : string;
  l_filepath : string;
  l_frontmatter : node;
  l_headers : list string;
  l_valid : bool;
  l_errors : list string;
  l_missing : list string
}.

(** What a call of [analyze_file] does: it returns an analysis, raises an
    exception of its own code, or passes on an exception of the loader. *)
Inductive analysis_outcome : Type :=
| Analysed (a : LoadedAnalysis)
| Raises (e : exn)
| LoaderRaises (name : string).

Definition analyze_file_any
    (re_match : string -> option string)
    (safe_load : string -> load_result)
    (name path : string) (read : string + string) : analysis_outcome :=
  match read with
  | inl e =>
      Analysed {| l_filename := name;
                  l_filepath := path;
                  l_frontmatter := NNone;
                  l_headers := [];
                  l_valid := false;
                  l_errors := [String.append "Error reading file: " e];
                  l_missing := REQUIRED_YAML_FIELDS |}
  | inr content =>
      match extract_yaml_frontmatter_any re_match safe_load content with
      | inl raised => LoaderRaises raised
      | inr (yaml_data, errors) =>
          let hs := extract_headers content in
          match validate_yaml_fields_any yaml_data with
          | Raise e => Raises e
          | Ok missing_fields =>
              Analysed {| l_filename := name;
                          l_filepath := path;
                          l_frontmatter := yaml_data;
                          l_headers := hs;
                          l_valid := Nat.eqb (length errors) 0
                                     && Nat.eqb (length missing_fields) 0;
                          l_errors := errors;
                          l_missing := missing_fields |}
          end
      end
  end.

(** A [value] as a node. *)
Fixpoint node_of_value (v : value) : node :=
  match v with
  | VNone => NNone
  | VBool b => NBool b
  | VInt z => NInt z
  | VStr s => NStr s
  | VList items => NSeq (map node_of_value items)
  | VDict entries =>
      NMap (map (fun '(k, x) => (node_of_value k, node_of_value x)) entries)
  end.

(** A mapping with string keys, as a node. *)
Definition mapping_node (m : gmap string value) : node :=
  NMap (map (fun kv => (NStr (fst kv), node_of_value (snd kv))) (map_to_list m)).

(** A document of the annotated type, as a node. *)
Definition document_node (d : option (gmap string value)) : node :=
  match d with
  | None => NNone
  | Some m => mapping_node m
  end.

(** The loader at the annotated type, as a loader of nodes. *)
Definition typed_loader (safe_load : string -> string + option (gmap string value))
    (text : string) : load_result :=
  match safe_load text with
  | inl e => YAMLError e
  | inr d => Loaded (document_node d)
  end.

(** ** Export data *)

(** The counters of [get_export_data]. *)
Definition total_files (files : list FileAnalysis) : nat := length files.

Definition valid_files (files : list FileAnalysis) : nat :=
  length (List.filter yaml_valid files).


Definition total_headers (files : list FileAnalysis) : nat :=
  fold_right Nat.add 0 (map (fun analysis => length (headers analysis)) files).




(** [valid_files / total_files * 100], the success rate of the HTML reports
    and of the final summary, before formatting. *)
Definition success_rate (files : list FileAnalysis) : result Q :=
  let! q := truediv (valid_files files) (total_files files) in
  Ok (q * 100)%Q.

(** ** Steps of a phase, as the workflow schema lists them *)







(** ** Specification vocabulary, continued *)

(** Keys in the order they were first seen. *)
Definition first_seen (ks : list value) : list value :=
  fold_left (fun acc k => if existsb (py_eq k) acc then acc else acc ++ [k]) ks [].

(** Grouping as a function: one group per key, each holding the records
    with that key in input order. *)
Definition groups_by (key : task_info -> value) (tasks : list task_info)
    : list (value * list task_info) :=
  map (fun k => (k, List.filter (fun t => py_eq (key t) k) tasks))
      (first_seen (map key tasks)).

(** No two adjacent ['#'] in a text: ['##' not in s]. *)
Fixpoint no_double_hash (s : string) : bool :=
  match s with
  | EmptyString => true
  | String c s' =>
      match s' with
      | String c' _ => negb (is_hash c && is_hash c') && no_double_hash s'
      | EmptyString => true
      end
  end.

(** The newline as a text. *)
Definition newline : string := String (Ascii.ascii_of_nat 10) EmptyString.

(** The grouping step that the phase loop and the step loop share. *)
Definition place_by (key : task_info -> value) (t : task_info)
    (d : list (value * list task_info)) : list (value * list task_info) :=
  dict_append (key t) t
    (if existsb (fun kv => py_eq (key t) (fst kv)) d then d
     else d ++ [(key t, [])]).

Definition is_str (v : value) : bool :=
  match v with VStr _ => true | _ => false end.


(** A reference on which the existence checks return. *)
Definition ref_checkable (ids : list value) (v : value) : bool :=
  negb (truthy v) || (hashable v && (existsb (py_eq v) ids || is_str v)).

(** The inputs on which the builder returns a graph. *)
Definition buildable (files : list FileAnalysis) : bool :=
  let tasks := admitted_tasks files in
  let ids := map task_id tasks in
  forallb (fun t => hashable (phase t)) tasks
  && forallb hashable ids
  && forallb (fun t => ref_checkable ids (previous_task t)
                       && ref_checkable ids (next_task t)) tasks.


(** A file analysis that [analyze_file] can return. *)
Definition from_analyze_file (fd : FileAnalysis) : Prop :=
  exists re_match safe_load name path read,
    fd = analyze_file re_match safe_load name path read.

(** ** Python equality on hashable values *)

Lemma py_eq_refl v : hashable v = true -> py_eq v v = true.
Proof.
  destruct v as [|b|z|s| |]; simpl; try discriminate; intros _; auto.
  - destruct b; reflexivity.
  - apply Z.eqb_refl.
  - apply String.eqb_refl.
Qed.

Lemma py_eq_sym a b : py_eq a b = py_eq b a.
Proof.
  destruct a as [|x|x|x| |], b as [|y|y|y| |]; simpl;
    auto using Z.eqb_sym, String.eqb_sym.
Qed.

Lemma py_eq_trans a b c :
  py_eq a b = true -> py_eq b c = true -> py_eq a c = true.
Proof.
  destruct a as [|x|x|x| |], b as [|y|y|y| |], c as [|z|z|z| |];
    simpl; try discriminate; auto;
    rewrite ?Z.eqb_eq, ?String.eqb_eq; intros; subst; auto;
    try congruence.
Qed.

Lemma py_eq_hashable_l a b : py_eq a b = true -> hashable a = true.
Proof. destruct a, b; simpl; auto; discriminate. Qed.

Lemma py_eq_str s v : py_eq (VStr s) v = true <-> v = VStr s.
Proof.
  destruct v; simpl; split; try discriminate; auto.
  - rewrite String.eqb_eq. congruence.
  - intros [= ->]. apply String.eqb_refl.
Qed.

Lemma existsb_py_eq_str s ids :
  existsb (py_eq (VStr s)) ids = true <-> In (VStr s) ids.
Proof.
  rewrite existsb_exists. split.
  - intros (v & Hin & Heq). apply py_eq_str in Heq. now subst.
  - intros Hin. exists (VStr s). split; [done | now apply py_eq_str].
Qed.

Lemma existsb_py_eq_In v ids :
  hashable v = true -> In v ids -> existsb (py_eq v) ids = true.
Proof.
  intros Hh Hin. apply existsb_exists. exists v. auto using py_eq_refl.
Qed.

(** ** Loops in the error monad *)

Lemma for_each_app {S A : Type} (body : S -> A -> result S) xs ys st :
  for_each body (xs ++ ys) st
  = let! st' := for_each body xs st in for_each body ys st'.
Proof.
  revert st. induction xs as [|x xs IH]; intros st; simpl; [reflexivity|].
  destruct (body st x); simpl; auto.
Qed.

Lemma check_phases_concat ids groups orph :
  for_each (check_phase ids) groups orph
  = for_each (check_task ids) (concat groups) orph.
Proof.
  revert orph. induction groups as [|ts groups IH]; intros orph; simpl.
  - reflexivity.
  - rewrite for_each_app. unfold check_phase at 1.
    destruct (for_each (check_task ids) ts orph); simpl; auto.
Qed.

(** ** The ordered dict of phase groups *)

Lemma existsb_keys {V : Type} k (d : list (value * V)) :
  existsb (fun kv => py_eq k (fst kv)) d = existsb (py_eq k) (keys d).
Proof. induction d as [|[k' v] d IH]; simpl; congruence. Qed.

Lemma keys_dict_append {V : Type} k (t : V) d :
  keys (dict_append k t d) = keys d.
Proof.
  induction d as [|[k' ts] d IH]; simpl; [reflexivity|].
  destruct (py_eq k k'); simpl; congruence.
Qed.

Lemma flatten_dict_append k t d :
  existsb (py_eq k) (keys d) = true ->
  Permutation (flatten (dict_append k t d)) (t :: flatten d).
Proof.
  induction d as [|[k' ts] d IH]; simpl; [discriminate|].
  destruct (py_eq k k') eqn:E; simpl; intros H.
  - unfold flatten; simpl. rewrite <- app_assoc. simpl.
    symmetry. apply Permutation_middle.
  - unfold flatten in *; simpl. specialize (IH H).
    rewrite IH. symmetry. apply Permutation_middle.
Qed.

Lemma filed_dict_append t d :
  filed_by_phase d -> filed_by_phase (dict_append (phase t) t d).
Proof.
  unfold filed_by_phase. induction 1 as [|[k' ts] d Hk Hd IH]; simpl.
  - constructor.
  - destruct (py_eq (phase t) k') eqn:E; constructor; simpl in *; auto.
    apply Forall_app. split; [assumption|]. repeat constructor. exact E.
Qed.

Lemma keys_distinct_snoc ks k :
  keys_distinct ks = true -> existsb (py_eq k) ks = false ->
  keys_distinct (ks ++ [k]) = true.
Proof.
  induction ks as [|k' ks IH]; simpl; [reflexivity|].
  rewrite andb_true_iff, negb_true_iff, orb_false_iff.
  intros [Hk' Hks] [Hk Hrest].
  rewrite existsb_app, Hk'. simpl.
  rewrite py_eq_sym, Hk. simpl. auto.
Qed.

Lemma keys_place t d :
  keys (place t d)
  = if existsb (py_eq (phase t)) (keys d) then keys d else keys d ++ [phase t].
Proof.
  unfold place. rewrite keys_dict_append, existsb_keys.
  destruct (existsb _ _); [reflexivity|].
  unfold keys. rewrite map_app. reflexivity.
Qed.

Lemma flatten_snoc_empty k d : flatten (d ++ [(k, [])]) = flatten d.
Proof.
  unfold flatten, values. rewrite map_app, concat_app. simpl.
  apply app_nil_r.
Qed.

Lemma flatten_place t d :
  hashable (phase t) = true ->
  Permutation (flatten (place t d)) (t :: flatten d).
Proof.
  intros Hh. unfold place. rewrite existsb_keys.
  destruct (existsb _ _) eqn:E.
  - now apply flatten_dict_append.
  - rewrite flatten_dict_append.
    + now rewrite flatten_snoc_empty.
    + unfold keys. rewrite map_app, existsb_app. simpl.
      rewrite (py_eq_refl _ Hh). apply orb_true_iff. right. reflexivity.
Qed.

Lemma grouped_place t d : grouped d -> grouped (place t d).
Proof.
  intros [Hk Hf]. split.
  - rewrite keys_place. destruct (existsb _ _) eqn:E; [assumption|].
    now apply keys_distinct_snoc.
  - unfold place. apply filed_dict_append.
    destruct (existsb _ _); [assumption|].
    apply Forall_app. split; [assumption|]. repeat constructor.
Qed.

Lemma grouped_nil : grouped [].
Proof. split; [reflexivity | constructor]. Qed.

Lemma sum_len_flatten d : sum_len d = length (flatten d).
Proof.
  unfold sum_len, flatten. induction (values d) as [|ts l IH]; simpl.
  - reflexivity.
  - rewrite length_app. congruence.
Qed.

(** Under distinct keys a key identifies its entry. *)
Lemma keys_distinct_entry {V : Type} (d : list (value * V)) k1 v1 k2 v2 :
  keys_distinct (keys d) = true ->
  In (k1, v1) d -> In (k2, v2) d -> py_eq k1 k2 = true ->
  (k1, v1) = (k2, v2).
Proof.
  induction d as [|[k v] d IH]; simpl; [tauto|].
  rewrite andb_true_iff, negb_true_iff.
  intros [Hk Hd] [H1|H1] [H2|H2] Heq.
  - congruence.
  - injection H1 as -> ->. exfalso.
    assert (existsb (py_eq k1) (keys d) = true); [|congruence].
    apply existsb_exists. exists k2. split; [|assumption].
    apply (in_map fst) in H2. exact H2.
  - injection H2 as -> ->. exfalso.
    assert (existsb (py_eq k2) (keys d) = true); [|congruence].
    apply existsb_exists. exists k1. split.
    + apply (in_map fst) in H1. exact H1.
    + now rewrite py_eq_sym.
  - auto.
Qed.

Lemma for_each_raise {S A : Type} (body : S -> A -> result S) xs st e :
  for_each body xs st = Raise e ->
  exists st0 x, In x xs /\ body st0 x = Raise e.
Proof.
  revert st. induction xs as [|x xs IH]; intros st; simpl; [discriminate|].
  destruct (body st x) as [st1|e1] eqn:E; simpl.
  - intros H. destruct (IH _ H) as (st0 & y & Hin & Hy). eauto.
  - intros [= ->]. eauto.
Qed.

(** ** The first loop: scanning the files *)

Lemma task_of_Some file_data t :
  task_of file_data = Some t ->
  admitted file_data = true /\
  exists yaml_data, yaml_frontmatter file_data = Some yaml_data
                    /\ t = extract_task_info file_data yaml_data.
Proof.
  unfold task_of. destruct (admitted file_data); [|discriminate].
  destruct (yaml_frontmatter file_data) as [m|]; simpl; [|discriminate].
  intros [= <-]. eauto.
Qed.

Lemma task_of_None file_data :
  task_of file_data = None <-> admitted file_data = false.
Proof.
  unfold task_of, admitted.
  destruct (yaml_valid file_data), (yaml_frontmatter file_data) as [m|];
    simpl; try tauto.
  destruct (negb _); simpl; split; congruence.
Qed.

Lemma task_of_valid file_data t : task_of file_data = Some t -> valid t = true.
Proof.
  intros H. destruct (task_of_Some _ _ H) as (Ha & m & _ & ->). simpl.
  unfold admitted in Ha. now apply andb_true_iff in Ha.
Qed.

Lemma scan_file_skip st file_data :
  admitted file_data = false -> scan_file st file_data = Ok st.
Proof.
  unfold scan_file, admitted. intros H.
  destruct (yaml_valid file_data), (truthy_dict (yaml_frontmatter file_data));
    simpl in *; congruence.
Qed.

Lemma scan_file_task st file_data t :
  task_of file_data = Some t ->
  scan_file st file_data
  = if hashable (phase t) then Ok (scan_step st t) else Raise TypeError.
Proof.
  intros H. pose proof (task_of_valid _ _ H) as Hv.
  destruct (task_of_Some _ _ H) as (Ha & m & Hm & ->).
  unfold scan_file. unfold admitted in Ha. apply andb_true_iff in Ha as [Ha1 Ha2].
  rewrite Ha1, Ha2, Hm. simpl negb. simpl orb. cbv iota.
  unfold dict_contains.
  destruct (hashable (phase (extract_task_info file_data m))); [|reflexivity].
  unfold scan_step, place, connected. simpl. rewrite Ha1.
  destruct (existsb _ (s_phases st)); reflexivity.
Qed.

Lemma scan_file_raises st file_data e :
  scan_file st file_data = Raise e -> e = TypeError.
Proof.
  destruct (task_of file_data) as [t|] eqn:E.
  - rewrite (scan_file_task _ _ _ E). destruct (hashable _); congruence.
  - apply task_of_None in E. rewrite scan_file_skip by assumption. congruence.
Qed.

Lemma scan_loop_inv files : forall st st',
  for_each scan_file files st = Ok st' ->
  grouped (s_phases st) ->
  grouped (s_phases st')
  /\ Permutation (flatten (s_phases st'))
                 (flatten (s_phases st) ++ admitted_tasks files)
  /\ s_valid_tasks st' = s_valid_tasks st + length (admitted_tasks files)
  /\ s_connected_tasks st'
     = s_connected_tasks st + length (List.filter connected (admitted_tasks files))
  /\ Forall (fun t => hashable (phase t) = true) (admitted_tasks files).
Proof.
  induction files as [|fd files IH]; intros st st'; simpl.
  - intros [= <-] [Hk Hf]. rewrite app_nil_r. repeat split; auto.
  - destruct (task_of fd) as [t|] eqn:E.
    + rewrite (scan_file_task _ _ _ E).
      destruct (hashable (phase t)) eqn:Hh; simpl; [|discriminate].
      intros Hloop Hg.
      destruct (IH _ _ Hloop (grouped_place t _ Hg))
        as (Hg' & Hp & Hv & Hc & Hall).
      simpl in Hp, Hv, Hc. repeat split.
      * exact (proj1 Hg').
      * exact (proj2 Hg').
      * rewrite Hp, (flatten_place _ _ Hh).
        simpl. apply Permutation_middle.
      * simpl. lia.
      * simpl. destruct (connected t); simpl; lia.
      * constructor; assumption.
    + apply task_of_None in E. rewrite scan_file_skip by assumption. simpl.
      apply IH.
Qed.

Lemma scan_loop_returns files : forall st,
  Forall (fun t => hashable (phase t) = true) (admitted_tasks files) ->
  exists st', for_each scan_file files st = Ok st'.
Proof.
  induction files as [|fd files IH]; intros st; simpl; [eauto|].
  destruct (task_of fd) as [t|] eqn:E.
  - intros Hall. inversion Hall as [|? ? Hh Hrest]; subst.
    rewrite (scan_file_task _ _ _ E), Hh. simpl. auto.
  - apply task_of_None in E. rewrite scan_file_skip by assumption. simpl. auto.
Qed.

(** A record that fails the entry filter leaves no trace in the scan. *)
Lemma scan_loop_drop before file_data after st :
  admitted file_data = false ->
  for_each scan_file (before ++ file_data :: after) st
  = for_each scan_file (before ++ after) st.
Proof.
  intros H. rewrite !for_each_app.
  destruct (for_each scan_file before st); simpl; [|reflexivity].
  now rewrite scan_file_skip.
Qed.

(** ** The second loop: resolving references *)

Lemma check_loop_inv ids ts : forall orph orph',
  for_each (check_task ids) ts orph = Ok orph' ->
  orph' = orph ++ List.filter (is_orphan ids) ts
  /\ Forall (checks_return ids) ts.
Proof.
  induction ts as [|t ts IH]; intros orph orph'; simpl.
  - intros [= <-]. rewrite app_nil_r. auto.
  - unfold check_task at 1, is_orphan, checks_return at 1.
    destruct (prev_exists ids t) as [p|] eqn:Ep; simpl; [|discriminate].
    destruct (next_exists ids t) as [n|] eqn:En; simpl; [|discriminate].
    intros H. destruct (negb (p && n)); apply IH in H as [-> Hall].
    + rewrite <- app_assoc. split; [reflexivity|]. constructor; eauto.
    + split; [reflexivity|]. constructor; eauto.
Qed.

Lemma check_loop_returns ids ts : forall orph,
  Forall (checks_return ids) ts ->
  exists orph', for_each (check_task ids) ts orph = Ok orph'.
Proof.
  induction ts as [|t ts IH]; intros orph Hall; simpl; [eauto|].
  inversion Hall as [|? ? (p & n & Hp & Hn) Hrest]; subst.
  unfold check_task at 1. rewrite Hp, Hn. simpl.
  destruct (negb (p && n)); apply IH; assumption.
Qed.

Lemma prev_exists_raises ids t e :
  prev_exists ids t = Raise e -> e <> ZeroDivisionError.
Proof.
  unfold prev_exists, por, set_contains, startswith.
  destruct (truthy (previous_task t)); simpl; [|discriminate].
  destruct (hashable (previous_task t)); simpl; [|congruence].
  destruct (existsb _ ids); simpl; [discriminate|].
  destruct (previous_task t); congruence.
Qed.

Lemma next_exists_raises ids t e :
  next_exists ids t = Raise e -> e <> ZeroDivisionError.
Proof.
  unfold next_exists, por, set_contains, startswith.
  destruct (truthy (next_task t)); simpl; [|discriminate].
  destruct (hashable (next_task t)); simpl; [|congruence].
  destruct (existsb _ ids); simpl; [discriminate|].
  destruct (next_task t); congruence.
Qed.

Lemma check_task_raises ids orph t e :
  check_task ids orph t = Raise e -> e <> ZeroDivisionError.
Proof.
  unfold check_task.
  destruct (prev_exists ids t) eqn:Ep; simpl.
  - destruct (next_exists ids t) eqn:En; simpl.
    + destruct (negb _); discriminate.
    + intros [= <-]. eauto using next_exists_raises.
  - intros [= <-]. eauto using prev_exists_raises.
Qed.

Lemma plain_ref_returns ids v p :
  plain_ref v = true ->
  exists b, por (Ok (negb (truthy v)))
                (por (set_contains v ids) (startswith v p)) = Ok b.
Proof.
  unfold plain_ref, por, set_contains, startswith.
  destruct (truthy v) eqn:Et; simpl; [|eauto].
  destruct v; try discriminate. simpl.
  destruct (existsb _ ids); simpl; eauto.
Qed.

Lemma well_typed_checks_return ids t :
  well_typed t = true -> checks_return ids t.
Proof.
  unfold well_typed. rewrite !andb_true_iff. intros [[_ Hp] Hn].
  destruct (plain_ref_returns ids _ "PHASE" Hp) as [p Hp'].
  destruct (plain_ref_returns ids _ "P" Hn) as [n Hn'].
  exists p, n. split; assumption.
Qed.

(** ** The builder as a whole *)

Lemma compute_completion_rate_eq v t :
  compute_completion_rate v t
  = Ok (if Nat.ltb 0 t
        then Float (inject_Z (Z.of_nat v) / inject_Z (Z.of_nat t) * 100)%Q
        else Int 0).
Proof. unfold compute_completion_rate, truediv. destruct t; reflexivity. Qed.

Lemma all_task_ids_Ok d ids :
  all_task_ids d = Ok ids ->
  ids = map task_id (flatten d) /\ forallb hashable ids = true.
Proof.
  unfold all_task_ids, flatten.
  destruct (forallb hashable _) eqn:E; [|discriminate].
  intros [= <-]. auto.
Qed.

(** Everything a successful run fixes, in terms of the two loops. *)
Lemma build_inv files g :
  _build_workflow_data files = Ok g ->
  exists st ids,
    for_each scan_file files scan_init = Ok st
    /\ all_task_ids (s_phases st) = Ok ids
    /\ phases g = s_phases st
    /\ orphaned g = List.filter (is_orphan ids) (flatten (phases g))
    /\ Forall (checks_return ids) (flatten (phases g))
    /\ stats g
       = {| total_tasks := sum_len (phases g);
            connected_tasks := s_connected_tasks st;
            orphaned_tasks := length (orphaned g);
            phases_count := length (phases g);
            valid_tasks := s_valid_tasks st;
            completion_rate :=
              if Nat.ltb 0 (sum_len (phases g))
              then Float (inject_Z (Z.of_nat (s_valid_tasks st))
                          / inject_Z (Z.of_nat (sum_len (phases g))) * 100)%Q
              else Int 0 |}.
Proof.
  unfold _build_workflow_data.
  destruct (for_each scan_file files scan_init) as [st|] eqn:Escan;
    simpl; [|discriminate].
  destruct (all_task_ids (s_phases st)) as [ids|] eqn:Eids;
    simpl; [|discriminate].
  rewrite check_phases_concat.
  destruct (for_each (check_task ids) _ []) as [orph|] eqn:Echeck;
    simpl; [|discriminate].
  rewrite compute_completion_rate_eq. simpl. intros [= <-]. simpl.
  apply check_loop_inv in Echeck as [-> Hall]. simpl.
  exists st, ids. repeat split; auto.
Qed.

(** The graph holds the admitted records, each once, filed under its phase;
    the counters count them. *)
Lemma build_spec files g :
  _build_workflow_data files = Ok g ->
  grouped (phases g)
  /\ Permutation (flatten (phases g)) (admitted_tasks files)
  /\ total_tasks (stats g) = length (admitted_tasks files)
  /\ valid_tasks (stats g) = length (admitted_tasks files)
  /\ connected_tasks (stats g)
     = length (List.filter connected (admitted_tasks files))
  /\ orphaned_tasks (stats g) = length (orphaned g)
  /\ phases_count (stats g) = length (phases g).
Proof.
  intros H. destruct (build_inv _ _ H) as (st & ids & Hscan & _ & Hph & _ & _ & Hst).
  destruct (scan_loop_inv _ _ _ Hscan grouped_nil) as (Hg & Hp & Hv & Hc & _).
  simpl in Hp, Hv, Hc. rewrite <- Hph in Hg, Hp. rewrite Hst. simpl.
  repeat split; try tauto.
  - exact (proj1 Hg).
  - exact (proj2 Hg).
  - rewrite sum_len_flatten. now apply Permutation_length.
Qed.

(** The builder returns a graph whenever the admitted records are typed as
    the data model says. *)
Lemma build_returns files :
  Forall (fun t => well_typed t = true) (admitted_tasks files) ->
  exists g, _build_workflow_data files = Ok g.
Proof.
  intros Hwt.
  assert (Hph : Forall (fun t => hashable (phase t) = true) (admitted_tasks files)).
  { eapply Forall_impl; [exact Hwt|]. intros t. unfold well_typed.
    rewrite !andb_true_iff. tauto. }
  destruct (scan_loop_returns files scan_init Hph) as [st Hscan].
  destruct (scan_loop_inv _ _ _ Hscan grouped_nil) as (_ & Hp & _).
  simpl in Hp. symmetry in Hp.
  pose proof (Permutation_Forall Hp Hwt) as Hwt'.
  unfold _build_workflow_data. rewrite Hscan. simpl.
  unfold all_task_ids.
  assert (Hids : forallb hashable (map task_id (concat (values (s_phases st)))) = true).
  { apply forallb_forall. intros v Hv. apply in_map_iff in Hv as (t & <- & Ht).
    rewrite List.Forall_forall in Hwt'. specialize (Hwt' t Ht).
    unfold well_typed in Hwt'. rewrite !andb_true_iff in Hwt'. tauto. }
  rewrite Hids. simpl. rewrite check_phases_concat.
  destruct (check_loop_returns (map task_id (concat (values (s_phases st))))
              (concat (values (s_phases st))) []) as [orph Horph].
  { eapply Forall_impl; [exact Hwt'|]. intros t. apply well_typed_checks_return. }
  rewrite Horph. simpl. rewrite compute_completion_rate_eq. simpl. eauto.
Qed.

(** A record that fails the entry filter does not influence the result. *)
Lemma build_drop before file_data after :
  admitted file_data = false ->
  _build_workflow_data (before ++ file_data :: after)
  = _build_workflow_data (before ++ after).
Proof.
  intros H. unfold _build_workflow_data. now rewrite scan_loop_drop.
Qed.

Lemma length_admitted_tasks files :
  length (admitted_tasks files) = length (List.filter admitted files).
Proof.
  induction files as [|fd files IH]; simpl; [reflexivity|].
  destruct (task_of fd) as [t|] eqn:E.
  - apply task_of_Some in E as [-> _]. simpl. congruence.
  - apply task_of_None in E. now rewrite E.
Qed.

Lemma admitted_tasks_app xs ys :
  admitted_tasks (xs ++ ys) = admitted_tasks xs ++ admitted_tasks ys.
Proof.
  induction xs as [|fd xs IH]; simpl; [reflexivity|].
  destruct (task_of fd); simpl; congruence.
Qed.

Lemma build_raises files e :
  _build_workflow_data files = Raise e -> e <> ZeroDivisionError.
Proof.
  unfold _build_workflow_data.
  destruct (for_each scan_file files scan_init) as [st|e1] eqn:Escan; simpl.
  2:{ intros [= <-]. apply for_each_raise in Escan as (st0 & fd & _ & H).
      apply scan_file_raises in H. congruence. }
  destruct (all_task_ids (s_phases st)) as [ids|e1] eqn:Eids; simpl.
  2:{ intros [= <-]. unfold all_task_ids in Eids.
      destruct (forallb _ _); congruence. }
  rewrite check_phases_concat.
  destruct (for_each (check_task ids) _ []) as [orph|e1] eqn:Echeck; simpl.
  2:{ intros [= <-]. apply for_each_raise in Echeck as (o & t & _ & H).
      eauto using check_task_raises. }
  rewrite compute_completion_rate_eq. simpl. discriminate.
Qed.

(** Membership of a graph record in a phase group, with the group it is in. *)
Lemma in_flatten d t :
  In t (flatten d) <-> exists k ts, In (k, ts) d /\ In t ts.
Proof.
  unfold flatten, values. rewrite in_concat. split.
  - intros (ts & Hts & Ht). apply in_map_iff in Hts as ([k ts'] & <- & Hin).
    eauto.
  - intros (k & ts & Hin & Ht). exists ts. split; [|assumption].
    apply in_map_iff. exists (k, ts). auto.
Qed.

Lemma self_ratio_is_100 n :
  0 < n -> (inject_Z (Z.of_nat n) / inject_Z (Z.of_nat n) * 100 == 100)%Q.
Proof.
  intros Hn. unfold Qdiv. rewrite Qmult_inv_r.
  - reflexivity.
  - unfold Qeq. simpl. lia.
Qed.

(** The two branches of the completion rate, on a built graph. *)
Lemma rate_branches files g :
  _build_workflow_data files = Ok g ->
  (0 < total_tasks (stats g) ->
   completion_rate (stats g)
   = Float (inject_Z (Z.of_nat (valid_tasks (stats g)))
            / inject_Z (Z.of_nat (total_tasks (stats g))) * 100)%Q)
  /\ (total_tasks (stats g) = 0 -> completion_rate (stats g) = Int 0).
Proof.
  intros H.
  destruct (build_inv _ _ H) as (st & ids & _ & _ & _ & _ & _ & Hst).
  rewrite Hst. simpl. split.
  - intros Hpos. apply Nat.ltb_lt in Hpos. now rewrite Hpos.
  - intros ->. reflexivity.
Qed.

(** ** Where a record of the input ends up *)

Lemma task_of_filter fd yaml_data :
  yaml_valid fd = true -> carries_record fd = true ->
  yaml_frontmatter fd = Some yaml_data ->
  task_of fd = Some (extract_task_info fd yaml_data).
Proof.
  intros Hv Hc Hm. unfold task_of, admitted. unfold carries_record in Hc.
  rewrite Hv, Hc, Hm. reflexivity.
Qed.

Lemma filed_by_phase_In d k ts t :
  filed_by_phase d -> In (k, ts) d -> In t ts -> py_eq (phase t) k = true.
Proof.
  unfold filed_by_phase. rewrite List.Forall_forall. intros Hf Hk Ht.
  specialize (Hf _ Hk). simpl in Hf. rewrite List.Forall_forall in Hf. auto.
Qed.

Lemma admitted_record_in_graph before fd after g t :
  _build_workflow_data (before ++ fd :: after) = Ok g ->
  task_of fd = Some t ->
  In t (flatten (phases g)).
Proof.
  intros H Ht. destruct (build_spec _ _ H) as (_ & Hp & _).
  eapply Permutation_in; [symmetry; exact Hp|].
  rewrite admitted_tasks_app. simpl. rewrite Ht.
  apply in_or_app. right. left. reflexivity.
Qed.

Lemma graph_record_filed files g t :
  _build_workflow_data files = Ok g ->
  In t (flatten (phases g)) ->
  exists k ts, In (k, ts) (phases g) /\ py_eq (phase t) k = true /\ In t ts.
Proof.
  intros H Hin. destruct (build_spec _ _ H) as ([_ Hf] & _).
  apply in_flatten in Hin as (k & ts & Hk & Hts). exists k, ts.
  repeat split; try assumption. eapply filed_by_phase_In; eassumption.
Qed.

(** A record sits in one phase group only. *)
Lemma group_unique d k ts k' ts' t :
  grouped d ->
  In (k, ts) d -> In t ts -> In (k', ts') d -> In t ts' ->
  (k', ts') = (k, ts).
Proof.
  intros [Hk Hf] H1 Ht1 H2 Ht2.
  apply (keys_distinct_entry d); try assumption.
  pose proof (filed_by_phase_In _ _ _ _ Hf H1 Ht1) as E1.
  pose proof (filed_by_phase_In _ _ _ _ Hf H2 Ht2) as E2.
  rewrite py_eq_sym in E2. eapply py_eq_trans; eassumption.
Qed.

Lemma graph_ids files g ids t :
  _build_workflow_data files = Ok g ->
  all_task_ids (phases g) = Ok ids ->
  In t (flatten (phases g)) ->
  In (task_id t) ids /\ hashable (task_id t) = true.
Proof.
  intros _ Hids Hin. apply all_task_ids_Ok in Hids as [-> Hh].
  assert (Hid : In (task_id t) (map task_id (flatten (phases g))))
    by now apply in_map.
  split; [assumption|]. rewrite forallb_forall in Hh. auto.
Qed.

Lemma build_ids files g :
  _build_workflow_data files = Ok g ->
  exists ids, all_task_ids (phases g) = Ok ids
              /\ Forall (checks_return ids) (flatten (phases g))
              /\ orphaned g = List.filter (is_orphan ids) (flatten (phases g)).
Proof.
  intros H. destruct (build_inv _ _ H) as (st & ids & _ & Hids & Hph & Ho & Hc & _).
  exists ids. rewrite Hph. rewrite Hph in Ho, Hc. auto.
Qed.

Lemma is_orphan_iff ids t :
  checks_return ids t ->
  is_orphan ids t = true
  <-> prev_exists ids t = Ok false \/ next_exists ids t = Ok false.
Proof.
  intros (p & n & Hp & Hn). unfold is_orphan. rewrite Hp, Hn.
  destruct p, n; simpl; intuition congruence.
Qed.

Lemma filter_Permutation_bool {A : Type} (f : A -> bool) l l' :
  Permutation l l' -> Permutation (List.filter f l) (List.filter f l').
Proof.
  induction 1 as [|x l l' _ IH|x y l|l l' l'' _ IH1 _ IH2]; simpl.
  - constructor.
  - destruct (f x); [now constructor | assumption].
  - destruct (f x), (f y); try reflexivity. apply perm_swap.
  - now transitivity (List.filter f l').
Qed.

Lemma admitted_tasks_valid files :
  Forall (fun t => valid t = true) (admitted_tasks files).
Proof.
  induction files as [|fd files IH]; simpl; [constructor|].
  destruct (task_of fd) as [t|] eqn:E; [|assumption].
  constructor; [|assumption]. eapply task_of_valid, E.
Qed.

(** * The claims *)

(** C8. For the empty input sequence the builder returns a graph with an
    empty phase map, an empty orphaned collection, and statistics whose six
    fields are all 0 (the completion rate being the int 0: no division is
    performed). *)
Theorem C8_empty_input :
  _build_workflow_data []
  = Ok {| phases := [];
          orphaned := [];
          stats := {| total_tasks := 0;
                      connected_tasks := 0;
                      orphaned_tasks := 0;
                      phases_count := 0;
                      valid_tasks := 0;
                      completion_rate := Int 0 |} |}.
Proof. reflexivity. Qed.

(** C2. Reference resolution is asymmetric.  Whatever the known task ids
    are, a successor reference ["P5"] is resolved, since it starts with
    ["P"]; the same string as a predecessor reference is resolved exactly
    when ["P5"] is a known task id, since it does not start with
    ["PHASE"]. *)
Theorem C2_reference_prefix_asymmetry (ids : list value) (t1 t2 : task_info) :
  next_task t1 = VStr "P5" ->
  previous_task t2 = VStr "P5" ->
  next_exists ids t1 = Ok true
  /\ (prev_exists ids t2 = Ok true <-> In (VStr "P5") ids)
  /\ (prev_exists ids t2 = Ok false <-> ~ In (VStr "P5") ids).
Proof.
  intros Hn Hp. unfold next_exists, prev_exists, por, set_contains, startswith.
  rewrite Hn, Hp. simpl.
  pose proof (existsb_py_eq_str "P5" ids) as Hmem.
  destruct (existsb (py_eq (VStr "P5")) ids); simpl;
    intuition (discriminate || congruence).
Qed.

Lemma C2_reference_prefix_asymmetry_witness :
  let t := extract_task_info file_p5
             (complete_front_matter (VStr "T2") (VStr "1") (VStr "P5") (VStr "P5")) in
  let ids := [VStr "T1"; VStr "T2"] in
  next_exists ids t = Ok true
  /\ (prev_exists ids t = Ok true <-> In (VStr "P5") ids)
  /\ (prev_exists ids t = Ok false <-> ~ In (VStr "P5") ids).
Proof.
  intros t ids. apply (C2_reference_prefix_asymmetry ids t t); reflexivity.
Defined.

(** C7. The completion rate is [valid_tasks / total_tasks * 100] when
    [total_tasks > 0] and the int 0 when [total_tasks = 0]; computing it
    always returns, and the builder never raises [ZeroDivisionError]. *)
Theorem C7_completion_rate_guarded (files : list FileAnalysis) :
  _build_workflow_data files <> Raise ZeroDivisionError
  /\ (forall v t, exists r, compute_completion_rate v t = Ok r)
  /\ forall g, _build_workflow_data files = Ok g ->
       (0 < total_tasks (stats g) ->
        completion_rate (stats g)
        = Float (inject_Z (Z.of_nat (valid_tasks (stats g)))
                 / inject_Z (Z.of_nat (total_tasks (stats g))) * 100)%Q)
       /\ (total_tasks (stats g) = 0 -> completion_rate (stats g) = Int 0).
Proof.
  split; [|split].
  - intros H. now apply build_raises in H.
  - intros v t. rewrite compute_completion_rate_eq. eauto.
  - intros g H. exact (rate_branches files g H).
Qed.

Lemma C7_completion_rate_guarded_witness :
  exists g, _build_workflow_data sample_files = Ok g
            /\ 0 < total_tasks (stats g)
            /\ completion_rate (stats g)
               = Float (inject_Z (Z.of_nat (valid_tasks (stats g)))
                        / inject_Z (Z.of_nat (total_tasks (stats g))) * 100)%Q.
Proof.
  destruct (_build_workflow_data sample_files) as [g|e] eqn:E;
    [|vm_compute in E; discriminate].
  exists g. split; [reflexivity|].
  assert (Hpos : 0 < total_tasks (stats g)).
  { vm_compute in E. injection E as <-. simpl. lia. }
  split; [exact Hpos|].
  exact (proj1 (proj2 (proj2 (C7_completion_rate_guarded sample_files)) g E) Hpos).
Defined.

(** C10. In every graph the builder produces, [valid_tasks] equals
    [total_tasks], because every record of the graph carries [valid = true];
    hence the completion rate is 100 when there is a task and the int 0 when
    there is none, and nothing in between. *)
Theorem C10_completion_rate_is_0_or_100 (files : list FileAnalysis)
    (g : workflow_data) :
  _build_workflow_data files = Ok g ->
  Forall (fun t => valid t = true) (flatten (phases g))
  /\ valid_tasks (stats g) = total_tasks (stats g)
  /\ (0 < total_tasks (stats g) ->
      exists q, completion_rate (stats g) = Float q /\ (q == 100)%Q)
  /\ (total_tasks (stats g) = 0 -> completion_rate (stats g) = Int 0).
Proof.
  intros H.
  destruct (build_spec _ _ H) as (_ & Hp & Ht & Hv & _).
  destruct (rate_branches files g H) as [Hpos Hzero].
  split; [|split; [|split]].
  - symmetry in Hp. exact (Permutation_Forall Hp (admitted_tasks_valid files)).
  - congruence.
  - intros Hn. eexists. split; [exact (Hpos Hn)|].
    rewrite Hv, Ht. apply self_ratio_is_100. lia.
  - exact Hzero.
Qed.

Lemma C10_completion_rate_is_0_or_100_witness :
  exists g, _build_workflow_data sample_files = Ok g
            /\ valid_tasks (stats g) = total_tasks (stats g)
            /\ exists q, completion_rate (stats g) = Float q /\ (q == 100)%Q.
Proof.
  destruct (_build_workflow_data sample_files) as [g|e] eqn:E;
    [|vm_compute in E; discriminate].
  exists g. split; [reflexivity|].
  destruct (C10_completion_rate_is_0_or_100 sample_files g E)
    as (_ & Hv & Hpos & _).
  split; [exact Hv|]. apply Hpos.
  vm_compute in E. injection E as <-. simpl. lia.
Defined.

(** C4, as stated, fails: [file_incomplete] parsed without error and carries
    a front-matter record, yet it is in no phase group, so the group sizes
    sum to 0 while one input record is not a parse failure. *)
Lemma C4_counterexample :
  yaml_frontmatter file_incomplete = Some incomplete_front_matter
  /\ yaml_errors file_incomplete = []
  /\ carries_record file_incomplete = true
  /\ exists g, _build_workflow_data [file_incomplete] = Ok g
               /\ sum_len (phases g) = 0
               /\ sum_len (phases g)
                  <> length (List.filter carries_record [file_incomplete]).
Proof.
  repeat split.
  eexists. split; [vm_compute; reflexivity|]. split; [reflexivity|].
  vm_compute. discriminate.
Qed.

(** C4, amended. The sizes of the phase groups sum to the number of input
    records that pass the entry filter, that is, records with
    [yaml_valid = true] and a non-empty front matter; [total_tasks] is that
    sum.  Records that parsed but miss a required field are left out like
    parse failures. *)
Theorem C4_total_counts_admitted (files : list FileAnalysis) (g : workflow_data) :
  _build_workflow_data files = Ok g ->
  sum_len (phases g)
  = length (List.filter (fun fd => yaml_valid fd && carries_record fd) files)
  /\ total_tasks (stats g) = sum_len (phases g).
Proof.
  intros H. destruct (build_spec _ _ H) as (_ & Hp & Ht & _).
  rewrite sum_len_flatten, (Permutation_length Hp). split.
  - apply length_admitted_tasks.
  - exact Ht.
Qed.

Lemma C4_total_counts_admitted_witness :
  exists g, _build_workflow_data sample_files = Ok g
            /\ sum_len (phases g) = 3
            /\ total_tasks (stats g) = sum_len (phases g).
Proof.
  destruct (_build_workflow_data sample_files) as [g|e] eqn:E;
    [|vm_compute in E; discriminate].
  exists g. split; [reflexivity|].
  destruct (C4_total_counts_admitted sample_files g E) as [Hsum Htotal].
  split; [|exact Htotal]. rewrite Hsum. vm_compute. reflexivity.
Defined.

(** C1, as stated, fails: [file_incomplete] was parsed (it carries a
    front-matter record, no YAML error) and only misses required fields, yet
    the builder puts it in no phase group and counts no task. *)
Lemma C1_counterexample :
  yaml_frontmatter file_incomplete = Some incomplete_front_matter
  /\ yaml_errors file_incomplete = []
  /\ missing_required_fields file_incomplete
     = ["step"; "task"; "title"; "previous_task"; "next_task"; "version";
        "agent"; "orchestrator"]
  /\ yaml_valid file_incomplete = false
  /\ exists g, _build_workflow_data [file_incomplete] = Ok g
               /\ phases g = []
               /\ all_task_ids (phases g) = Ok []
               /\ total_tasks (stats g) = 0.
Proof.
  repeat split.
  eexists. split; [vm_compute; reflexivity|]. repeat split.
Qed.

(** C1, amended. A record that passes the entry filter ([yaml_valid = true]
    and a non-empty front matter) is placed in the phase group of its phase,
    its task id is in the resolution universe, and it is counted in
    [total_tasks].  A record with [yaml_valid = false] is skipped, whether it
    failed to parse or only misses required fields, and so is a record
    without front matter: the builder returns what it returns without that
    record. *)
Theorem C1_entry_filter (before : list FileAnalysis) (fd : FileAnalysis)
    (after : list FileAnalysis) (g : workflow_data) :
  _build_workflow_data (before ++ fd :: after) = Ok g ->
  (forall yaml_data,
     yaml_valid fd = true -> carries_record fd = true ->
     yaml_frontmatter fd = Some yaml_data ->
     let t := extract_task_info fd yaml_data in
     (exists k ts, In (k, ts) (phases g) /\ py_eq (phase t) k = true /\ In t ts)
     /\ (exists ids, all_task_ids (phases g) = Ok ids /\ In (task_id t) ids)
     /\ total_tasks (stats g) = S (length (admitted_tasks (before ++ after))))
  /\ (yaml_valid fd = false \/ carries_record fd = false ->
      _build_workflow_data (before ++ after) = Ok g
      /\ total_tasks (stats g) = length (admitted_tasks (before ++ after))).
Proof.
  intros H. split.
  - intros m Hv Hc Hm t.
    pose proof (task_of_filter _ _ Hv Hc Hm) as Ht. fold t in Ht.
    pose proof (admitted_record_in_graph _ _ _ _ _ H Ht) as Hin.
    split; [|split].
    + eapply graph_record_filed; eassumption.
    + destruct (build_ids _ _ H) as (ids & Hids & _).
      exists ids. split; [assumption|].
      eapply graph_ids; eassumption.
    + destruct (build_spec _ _ H) as (_ & _ & Htot & _).
      rewrite Htot, !admitted_tasks_app. simpl. rewrite Ht, !length_app.
      simpl. lia.
  - intros Hskip.
    assert (Ha : admitted fd = false).
    { unfold admitted. unfold carries_record in Hskip.
      destruct Hskip as [-> | ->]; [reflexivity | apply andb_false_r]. }
    rewrite (build_drop _ _ _ Ha) in H. split; [assumption|].
    now destruct (build_spec _ _ H) as (_ & _ & Htot & _).
Qed.

Lemma C1_entry_filter_witness :
  exists g, _build_workflow_data sample_files = Ok g
            /\ _build_workflow_data [file_dangling; file_p5; file_self] = Ok g
            /\ total_tasks (stats g) = 3.
Proof.
  destruct (_build_workflow_data sample_files) as [g|e] eqn:E;
    [|vm_compute in E; discriminate].
  exists g. split; [reflexivity|].
  destruct (proj2 (C1_entry_filter [file_dangling; file_p5; file_self]
                     file_incomplete [] g E) (or_introl eq_refl))
    as [Hsame Htotal].
  split; [exact Hsame|]. rewrite Htotal. vm_compute. reflexivity.
Defined.

(** C5, as stated, fails.  [file_empty_phase] passes validation with the
    empty string as its phase, and the builder groups it under the key [""]:
    the graph has no ["Unknown"] group.  [file_missing_phase], whose front
    matter has no [phase] key, is marked invalid by [analyze_file] and is in
    no group at all. *)
Lemma C5_counterexample :
  (empty_phase_front_matter !! "phase" = Some (VStr "")
   /\ yaml_valid file_empty_phase = true
   /\ exists g, _build_workflow_data [file_empty_phase] = Ok g
                /\ phases g
                   = [(VStr "",
                       [extract_task_info file_empty_phase
                          empty_phase_front_matter])]
                /\ ~ exists ts, In (VStr "Unknown", ts) (phases g))
  /\ (missing_phase_front_matter !! "phase" = None
      /\ missing_required_fields file_missing_phase = ["phase"]
      /\ yaml_valid file_missing_phase = false
      /\ exists g, _build_workflow_data [file_missing_phase] = Ok g
                   /\ phases g = []).
Proof.
  split; repeat split.
  - eexists. split; [vm_compute; reflexivity|]. split; [reflexivity|].
    intros (ts & [H|[]]). discriminate.
  - eexists. split; [vm_compute; reflexivity|]. reflexivity.
Qed.

(** C5, amended. For every input record that passes the entry filter and
    whose front matter has no [phase] key, the phase defaults to ["Unknown"]:
    scanning the record does not raise, in every graph built from an input
    that contains it the record is in the ["Unknown"] phase group, and the
    build returns a graph whenever the records are otherwise typed as the
    data model says.  A phase that is present but is the empty string is
    kept as the group key as it is: the record is in the group keyed [""],
    not in an ["Unknown"] group, and the build does not abort on its
    account either. *)
Theorem C5_missing_phase_defaults (before : list FileAnalysis)
    (fd : FileAnalysis) (after : list FileAnalysis)
    (yaml_data : gmap string value) :
  yaml_valid fd = true -> carries_record fd = true ->
  yaml_frontmatter fd = Some yaml_data ->
  let t := extract_task_info fd yaml_data in
  (yaml_data !! "phase" = None ->
   phase t = VStr "Unknown"
   /\ (forall st, exists st', scan_file st fd = Ok st')
   /\ (forall g, _build_workflow_data (before ++ fd :: after) = Ok g ->
         exists ts, In (VStr "Unknown", ts) (phases g) /\ In t ts)
   /\ (Forall (fun t' => well_typed t' = true) (admitted_tasks (before ++ after)) ->
       hashable (task_id t) = true ->
       plain_ref (previous_task t) = true -> plain_ref (next_task t) = true ->
       exists g, _build_workflow_data (before ++ fd :: after) = Ok g))
  /\ (yaml_data !! "phase" = Some (VStr "") ->
      phase t = VStr ""
      /\ (forall st, exists st', scan_file st fd = Ok st')
      /\ (forall g, _build_workflow_data (before ++ fd :: after) = Ok g ->
            (exists ts, In (VStr "", ts) (phases g) /\ In t ts)
            /\ forall ts, In (VStr "Unknown", ts) (phases g) -> ~ In t ts)
      /\ (Forall (fun t' => well_typed t' = true) (admitted_tasks (before ++ after)) ->
          hashable (task_id t) = true ->
          plain_ref (previous_task t) = true -> plain_ref (next_task t) = true ->
          exists g, _build_workflow_data (before ++ fd :: after) = Ok g)).
Proof.
  intros Hv Hc Hm t.
  pose proof (task_of_filter _ _ Hv Hc Hm) as Ht. fold t in Ht.
  (* what follows from the phase being the string [s], however it got there *)
  assert (Hstr : forall s, phase t = VStr s ->
    (forall st, exists st', scan_file st fd = Ok st')
    /\ (forall g, _build_workflow_data (before ++ fd :: after) = Ok g ->
          (exists ts, In (VStr s, ts) (phases g) /\ In t ts)
          /\ forall s' ts, s' <> s -> In (VStr s', ts) (phases g) -> ~ In t ts)
    /\ (Forall (fun t' => well_typed t' = true) (admitted_tasks (before ++ after)) ->
        hashable (task_id t) = true ->
        plain_ref (previous_task t) = true -> plain_ref (next_task t) = true ->
        exists g, _build_workflow_data (before ++ fd :: after) = Ok g)).
  { intros s Hphase. split; [|split].
    - intros st. rewrite (scan_file_task _ _ _ Ht), Hphase. simpl. eauto.
    - intros g H.
      pose proof (admitted_record_in_graph _ _ _ _ _ H Ht) as Hin.
      destruct (graph_record_filed _ _ _ H Hin) as (k & ts & Hk & Heq & Hts).
      rewrite Hphase in Heq. apply py_eq_str in Heq. subst k. split; [eauto|].
      intros s' ts' Hne Hk' Hts'.
      destruct (build_spec _ _ H) as (Hg & _).
      pose proof (group_unique _ _ _ _ _ _ Hg Hk Hts Hk' Hts') as E.
      congruence.
    - intros Hall Hid Hprev Hnext. apply build_returns.
      rewrite admitted_tasks_app in *. simpl. rewrite Ht.
      apply Forall_app in Hall as [H1 H2].
      apply Forall_app. split; [assumption|]. constructor; [|assumption].
      unfold well_typed. rewrite Hphase, Hid, Hprev, Hnext. reflexivity. }
  split.
  - intros Hph.
    assert (Hphase : phase t = VStr "Unknown").
    { subst t. simpl. unfold dict_get. now rewrite Hph. }
    destruct (Hstr _ Hphase) as (Hscan & Hgroup & Hret).
    split; [assumption|]. split; [assumption|]. split; [|assumption].
    intros g H. apply (Hgroup g H).
  - intros Hph.
    assert (Hphase : phase t = VStr "").
    { subst t. simpl. unfold dict_get. now rewrite Hph. }
    destruct (Hstr _ Hphase) as (Hscan & Hgroup & Hret).
    split; [assumption|]. split; [assumption|]. split; [|assumption].
    intros g H. destruct (Hgroup g H) as [Hin Hnot]. split; [assumption|].
    intros ts. apply Hnot. discriminate.
Qed.

Lemma C5_missing_phase_defaults_witness :
  (exists g, _build_workflow_data [file_dangling; file_no_phase] = Ok g
             /\ exists ts, In (VStr "Unknown", ts) (phases g)
                           /\ In (extract_task_info file_no_phase
                                    no_phase_front_matter) ts)
  /\ (exists g, _build_workflow_data [file_dangling; file_empty_phase] = Ok g
                /\ exists ts, In (VStr "", ts) (phases g)
                              /\ In (extract_task_info file_empty_phase
                                       empty_phase_front_matter) ts).
Proof.
  split.
  - destruct (proj1 (C5_missing_phase_defaults [file_dangling] file_no_phase []
                       no_phase_front_matter eq_refl eq_refl eq_refl) eq_refl)
      as (_ & _ & Hgroup & Hreturns).
    destruct Hreturns as [g Hg].
    + vm_compute. repeat constructor.
    + reflexivity.
    + reflexivity.
    + reflexivity.
    + exists g. split; [exact Hg | exact (Hgroup g Hg)].
  - destruct (proj2 (C5_missing_phase_defaults [file_dangling] file_empty_phase []
                       empty_phase_front_matter eq_refl eq_refl eq_refl) eq_refl)
      as (_ & _ & Hgroup & Hreturns).
    destruct Hreturns as [g Hg].
    + vm_compute. repeat constructor.
    + reflexivity.
    + reflexivity.
    + reflexivity.
    + exists g. split; [exact Hg | exact (proj1 (Hgroup g Hg))].
Defined.



(** C6. In every built graph [connected_tasks] is the number of records of
    the graph whose [previous_task] or [next_task] is non-empty (truthy),
    whether or not the references resolve; a record whose only reference is
    a predecessor that fails resolution is counted as connected and is in
    [orphaned] as well. *)
Theorem C6_connected_counts_declared (files : list FileAnalysis)
    (g : workflow_data) :
  _build_workflow_data files = Ok g ->
  connected_tasks (stats g)
  = length (List.filter connected (flatten (phases g)))
  /\ forall ids t,
       all_task_ids (phases g) = Ok ids ->
       In t (flatten (phases g)) ->
       truthy (previous_task t) = true -> truthy (next_task t) = false ->
       prev_exists ids t = Ok false ->
       connected t = true /\ In t (orphaned g).
Proof.
  intros H. destruct (build_spec _ _ H) as (_ & Hp & _ & _ & Hc & _). split.
  - rewrite Hc. symmetry. apply Permutation_length.
    now apply filter_Permutation_bool.
  - intros ids t Hids Hin Hprev Hnext Hdangling.
    destruct (build_ids _ _ H) as (ids' & Hids' & Hret & Ho).
    assert (ids' = ids) as -> by congruence.
    split.
    + unfold connected. now rewrite Hprev.
    + rewrite Ho. apply filter_In. split; [assumption|].
      apply is_orphan_iff; [|now left].
      rewrite List.Forall_forall in Hret. auto.
Qed.

Lemma C6_connected_counts_declared_witness :
  let t := extract_task_info file_dangling
             (complete_front_matter (VStr "T1") (VStr "1") (VStr "T99") (VStr "")) in
  exists g, _build_workflow_data sample_files = Ok g
            /\ connected_tasks (stats g) = 3
            /\ connected t = true /\ In t (orphaned g).
Proof.
  intros t.
  destruct (_build_workflow_data sample_files) as [g|e] eqn:E;
    [|vm_compute in E; discriminate].
  exists g. split; [reflexivity|].
  destruct (C6_connected_counts_declared sample_files g E) as [Hcount Hdangling].
  split.
  - rewrite Hcount. vm_compute in E. injection E as <-. reflexivity.
  - apply (Hdangling [VStr "T1"; VStr "T2"; VStr "T3"] t).
    + vm_compute in E. injection E as <-. reflexivity.
    + vm_compute in E. injection E as <-. left. reflexivity.
    + reflexivity.
    + reflexivity.
    + reflexivity.
Defined.

(** C9. For every record of a built graph, a reference equal to the
    record's own task id is resolved as existing: [prev_exists] (resp.
    [next_exists]) is true.  Such a record can be in [orphaned] only on
    account of its other reference. *)
Theorem C9_self_reference_resolves (files : list FileAnalysis)
    (g : workflow_data) (ids : list value) (t : task_info) :
  _build_workflow_data files = Ok g ->
  all_task_ids (phases g) = Ok ids ->
  In t (flatten (phases g)) ->
  (previous_task t = task_id t -> prev_exists ids t = Ok true)
  /\ (next_task t = task_id t -> next_exists ids t = Ok true)
  /\ (previous_task t = task_id t -> In t (orphaned g) ->
      next_exists ids t = Ok false)
  /\ (next_task t = task_id t -> In t (orphaned g) ->
      prev_exists ids t = Ok false)
  /\ (previous_task t = task_id t -> next_task t = task_id t ->
      ~ In t (orphaned g)).
Proof.
  intros H Hids Hin.
  destruct (graph_ids _ _ _ _ H Hids Hin) as [Hid Hh].
  pose proof (existsb_py_eq_In _ _ Hh Hid) as Hmem.
  assert (Hprev : previous_task t = task_id t -> prev_exists ids t = Ok true).
  { intros E. unfold prev_exists, por, set_contains. rewrite E, Hh, Hmem.
    simpl. now destruct (truthy (task_id t)). }
  assert (Hnext : next_task t = task_id t -> next_exists ids t = Ok true).
  { intros E. unfold next_exists, por, set_contains. rewrite E, Hh, Hmem.
    simpl. now destruct (truthy (task_id t)). }
  destruct (build_ids _ _ H) as (ids' & Hids' & Hret & Ho).
  assert (ids' = ids) as -> by congruence.
  assert (Horph : In t (orphaned g) ->
                  prev_exists ids t = Ok false \/ next_exists ids t = Ok false).
  { rewrite Ho. intros Hf. apply filter_In in Hf as [_ Hf].
    apply is_orphan_iff; [|assumption].
    rewrite List.Forall_forall in Hret. auto. }
  repeat split; try assumption.
  - intros E Hf. destruct (Horph Hf) as [C|C]; [|assumption].
    rewrite (Hprev E) in C. discriminate.
  - intros E Hf. destruct (Horph Hf) as [C|C]; [assumption|].
    rewrite (Hnext E) in C. discriminate.
  - intros E1 E2 Hf. destruct (Horph Hf) as [C|C].
    + rewrite (Hprev E1) in C. discriminate.
    + rewrite (Hnext E2) in C. discriminate.
Qed.

Lemma C9_self_reference_resolves_witness :
  let t := extract_task_info file_self
             (complete_front_matter (VStr "T3") (VStr "2") (VStr "T3") (VStr "T3")) in
  let ids := [VStr "T1"; VStr "T2"; VStr "T3"] in
  exists g, _build_workflow_data sample_files = Ok g
            /\ prev_exists ids t = Ok true
            /\ next_exists ids t = Ok true
            /\ ~ In t (orphaned g).
Proof.
  intros t ids.
  destruct (_build_workflow_data sample_files) as [g|e] eqn:E;
    [|vm_compute in E; discriminate].
  exists g. split; [reflexivity|].
  destruct (C9_self_reference_resolves sample_files g ids t E)
    as (Hprev & Hnext & _ & _ & Hnot).
  - vm_compute in E. injection E as <-. reflexivity.
  - vm_compute in E. injection E as <-. right. right. left. reflexivity.
  - split; [exact (Hprev eq_refl)|].
    split; [exact (Hnext eq_refl)|].
    exact (Hnot eq_refl eq_refl).
Defined.

(** * Further properties of the analyzer *)

(** ** Required-field validation *)

Lemma filter_nil_iff {A : Type} (f : A -> bool) l :
  List.filter f l = [] <-> forall x, In x l -> f x = false.
Proof.
  induction l as [|a l IH]; simpl.
  - split; [intros _ x [] | reflexivity].
  - destruct (f a) eqn:E.
    + split; [discriminate|]. intros H. rewrite (H a) in E; [discriminate | now left].
    + rewrite IH. split.
      * intros H x [<- | Hin]; auto.
      * intros H x Hin. apply H. now right.
Qed.

Lemma filter_sublist {A : Type} (f : A -> bool) l :
  sublist (List.filter f l) l.
Proof.
  induction l as [|a l IH]; simpl; [constructor|].
  destruct (f a); now constructor.
Qed.

Lemma field_missing_false m f :
  field_missing m f = false <-> exists v, m !! f = Some v /\ v <> VNone.
Proof.
  unfold field_missing. destruct (m !! f) as [v|].
  - destruct v; simpl; split; try discriminate; eauto;
      try (intros (v' & [= <-] & Hv); congruence).
  - split; [discriminate | intros (v & Hv & _); discriminate].
Qed.

Lemma field_missing_true m f :
  field_missing m f = true <-> m !! f = None \/ m !! f = Some VNone.
Proof.
  unfold field_missing. destruct (m !! f) as [v|].
  - destruct v; simpl; split; auto; try discriminate;
      intros [H|H]; discriminate.
  - tauto.
Qed.

Lemma truthy_dict_lookup m f v :
  m !! f = Some v -> truthy_dict (Some m) = true.
Proof.
  intros H. simpl. destruct (Nat.eqb_spec (size m) 0) as [E|]; [|reflexivity].
  apply map_size_empty_iff in E. subst m. rewrite lookup_empty in H.
  discriminate.
Qed.

Lemma validate_Some m :
  validate_yaml_fields (Some m) = List.filter (field_missing m) REQUIRED_YAML_FIELDS.
Proof.
  unfold validate_yaml_fields. simpl.
  destruct (Nat.eqb_spec (size m) 0) as [E|]; simpl; [|reflexivity].
  apply map_size_empty_iff in E. subst m. reflexivity.
Qed.

Lemma validate_nil_iff (yaml_data : option (gmap string value)) :
  validate_yaml_fields yaml_data = []
  <-> exists m, yaml_data = Some m
                /\ forall f, In f REQUIRED_YAML_FIELDS ->
                             exists v, m !! f = Some v /\ v <> VNone.
Proof.
  destruct yaml_data as [m|].
  - rewrite validate_Some, filter_nil_iff. split.
    + intros H. exists m. split; [reflexivity|].
      intros f Hf. apply field_missing_false. auto.
    + intros (m' & [= <-] & H) f Hf. apply field_missing_false. auto.
  - split; [discriminate | intros (m & H & _); discriminate].
Qed.

(** X1. The validator reports nothing exactly for a front matter in which
    each of the ten required fields is present with a value other than
    [None]. *)
Theorem validate_passes_iff (yaml_data : option (gmap string value)) :
  validate_yaml_fields yaml_data = []
  <-> exists m, yaml_data = Some m
                /\ forall f, In f REQUIRED_YAML_FIELDS ->
                             exists v, m !! f = Some v /\ v <> VNone.
Proof.
  destruct yaml_data as [m|].
  - rewrite validate_Some, filter_nil_iff. split.
    + intros H. exists m. split; [reflexivity|].
      intros f Hf. apply field_missing_false. auto.
    + intros (m' & [= <-] & H) f Hf. apply field_missing_false. auto.
  - split; [discriminate | intros (m & H & _); discriminate].
Qed.

(** X2. For a parsed front matter, a field is reported missing iff it is
    required and is absent or set to [None]; a value that is present counts,
    even when it is empty or false.  The report keeps the order of the
    required-field list and has no duplicates. *)
Theorem validate_reports_exactly (m : gmap string value) :
  (forall f, In f (validate_yaml_fields (Some m))
             <-> In f REQUIRED_YAML_FIELDS
                 /\ (m !! f = None \/ m !! f = Some VNone))
  /\ sublist (validate_yaml_fields (Some m)) REQUIRED_YAML_FIELDS
  /\ NoDup (validate_yaml_fields (Some m)).
Proof.
  rewrite validate_Some. split; [|split].
  - intros f. rewrite filter_In, field_missing_true. tauto.
  - apply filter_sublist.
  - eapply sublist_NoDup; [|apply filter_sublist].
    apply NoDup_ListNoDup. unfold REQUIRED_YAML_FIELDS.
    repeat (constructor; [simpl; intuition discriminate|]). constructor.
Qed.

(** ** [extract_yaml_frontmatter] and [analyze_file] *)


Lemma validate_None_like d :
  truthy_dict d = false -> validate_yaml_fields d = REQUIRED_YAML_FIELDS.
Proof. unfold validate_yaml_fields. now intros ->. Qed.

Lemma analyze_content_valid name path d errs hs :
  yaml_valid (analyze_content name path (d, errs) hs) = true
  <-> errs = [] /\ validate_yaml_fields d = [].
Proof.
  simpl. rewrite andb_true_iff, !Nat.eqb_eq, !length_zero_iff_nil. tauto.
Qed.


Lemma file_self_from_analyze_file : from_analyze_file file_self.
Proof.
  exists (fun _ => Some "task_id: T3"),
         (fun _ => inr (Some (complete_front_matter
                                (VStr "T3") (VStr "2") (VStr "T3") (VStr "T3")))),
         "t3.md", "t3.md", (inr "---").
  reflexivity.
Qed.

(** *** Any loaded document *)

Lemma extract_yaml_frontmatter_any_cases re_match safe_load content :
  match extract_yaml_frontmatter_any re_match safe_load content with
  | inr (d, errs) =>
      (errs = []
       /\ exists text, re_match content = Some text /\ safe_load text = Loaded d)
      \/ (d = NNone /\ length errs = 1)
  | inl raised =>
      exists text, re_match content = Some text
                   /\ safe_load text = OtherException raised
  end.
Proof.
  unfold extract_yaml_frontmatter_any.
  destruct (negb _); simpl; [auto|].
  destruct (re_match content) as [text|]; simpl; [|auto].
  destruct (safe_load text) eqn:E; simpl; eauto.
Qed.

Lemma node_field_missing_raises d f e :
  node_field_missing d f = Raise e ->
  e = TypeError /\ forall entries, d <> NMap entries.
Proof.
  destruct d as [|b|z|x|t|bs|iso|items|pairs|items|entries]; simpl;
    try (intros [= <-]; split; [reflexivity | discriminate]).
  - destruct (is_substring f t); [|discriminate].
    intros [= <-]. split; [reflexivity | discriminate].
  - destruct (existsb _ items); [|discriminate].
    intros [= <-]. split; [reflexivity | discriminate].
  - discriminate.
  - destruct (existsb _ items); [|discriminate].
    intros [= <-]. split; [reflexivity | discriminate].
  - destruct (node_lookup entries f); discriminate.
Qed.

Lemma node_field_missing_present d f :
  node_field_missing d f = Ok false ->
  exists entries v, d = NMap entries /\ node_lookup entries f = Some v
                    /\ v <> NNone.
Proof.
  destruct d as [|b|z|x|t|bs|iso|items|pairs|items|entries]; simpl;
    try discriminate.
  - destruct (is_substring f t); discriminate.
  - destruct (existsb _ items); discriminate.
  - destruct (existsb _ items); discriminate.
  - destruct (node_lookup entries f) as [v|] eqn:E; [|discriminate].
    intros [= Hv]. exists entries, v. split; [reflexivity|].
    split; [exact E|]. intros ->. discriminate.
Qed.

Lemma check_fields_loop d fields : forall acc r,
  for_each (check_field d) fields acc = Ok r ->
  exists kept, r = acc ++ kept
               /\ sublist kept fields
               /\ forall f, In f fields -> ~ In f kept ->
                            node_field_missing d f = Ok false.
Proof.
  induction fields as [|f fields IH]; intros acc r; simpl.
  - intros [= <-]. exists []. rewrite app_nil_r. repeat split; [constructor|].
    intros f [].
  - unfold check_field at 1.
    destruct (node_field_missing d f) as [[|]|] eqn:E; simpl; [| |discriminate].
    + intros H. destruct (IH _ _ H) as (kept & -> & Hsub & Hrest).
      exists (f :: kept). rewrite <- app_assoc. repeat split.
      * now constructor.
      * intros f' [<- | Hin] Hnot; [exfalso; apply Hnot; now left|].
        apply Hrest; [assumption|]. intros Hk. apply Hnot. now right.
    + intros H. destruct (IH _ _ H) as (kept & -> & Hsub & Hrest).
      exists kept. repeat split; [now constructor|].
      intros f' [<- | Hin] Hnot; auto.
Qed.

Lemma validate_yaml_fields_any_nil d :
  validate_yaml_fields_any d = Ok [] ->
  exists entries, d = NMap entries
                  /\ forall f, In f REQUIRED_YAML_FIELDS ->
                       exists v, node_lookup entries f = Some v /\ v <> NNone.
Proof.
  unfold validate_yaml_fields_any. destruct (negb (node_truthy d)); [discriminate|].
  intros H. destruct (check_fields_loop _ _ _ _ H) as (kept & Hk & _ & Hrest).
  simpl in Hk. subst kept.
  pose proof (Hrest "phase" (or_introl eq_refl) (fun x => x)) as E.
  destruct (node_field_missing_present _ _ E) as (entries & _ & -> & _).
  exists entries. split; [reflexivity|]. intros f Hf.
  destruct (node_field_missing_present _ _ (Hrest f Hf (fun x => x)))
    as (entries' & v & [= <-] & Hv & Hne).
  eauto.
Qed.

Lemma validate_yaml_fields_any_raises d e :
  validate_yaml_fields_any d = Raise e ->
  e = TypeError /\ node_truthy d = true /\ forall entries, d <> NMap entries.
Proof.
  unfold validate_yaml_fields_any. destruct (node_truthy d); cbn [negb];
    [|discriminate].
  intros H. apply for_each_raise in H as (acc & f & _ & H).
  unfold check_field in H.
  destruct (node_field_missing d f) as [b|e'] eqn:E; simpl in H;
    [destruct b; discriminate|].
  injection H as <-. destruct (node_field_missing_raises _ _ _ E). auto.
Qed.

(** The functions at the annotated type are the general ones restricted to
    documents that are a mapping with string keys, or [None]. *)
Lemma node_is_none_of_value v : node_is_none (node_of_value v) = is_none v.
Proof. now destruct v. Qed.

Lemma node_lookup_mapping (l : list (string * value)) f :
  node_lookup (map (fun kv => (NStr (fst kv), node_of_value (snd kv))) l) f
  = option_map node_of_value ((list_to_map l : gmap string value) !! f).
Proof.
  unfold node_lookup. induction l as [|[k v] l IH]; simpl.
  - now rewrite lookup_empty.
  - destruct (String.eqb_spec f k) as [->|Hne].
    + now rewrite lookup_insert_eq.
    + rewrite lookup_insert_ne by congruence. exact IH.
Qed.

Lemma node_field_missing_mapping m f :
  node_field_missing (mapping_node m) f = Ok (field_missing m f).
Proof.
  unfold mapping_node, field_missing. simpl.
  rewrite node_lookup_mapping, list_to_map_to_list.
  destruct (m !! f); simpl; [|reflexivity].
  now rewrite node_is_none_of_value.
Qed.

Lemma check_fields_mapping m fields : forall acc,
  for_each (check_field (mapping_node m)) fields acc
  = Ok (acc ++ List.filter (field_missing m) fields).
Proof.
  induction fields as [|f fields IH]; intros acc; simpl.
  - now rewrite app_nil_r.
  - unfold check_field at 1. rewrite node_field_missing_mapping. simpl.
    rewrite IH. destruct (field_missing m f); [|reflexivity].
    now rewrite <- app_assoc.
Qed.

Lemma validate_yaml_fields_any_typed d :
  validate_yaml_fields_any (document_node d) = Ok (validate_yaml_fields d).
Proof.
  destruct d as [m|]; [|reflexivity].
  unfold validate_yaml_fields_any, validate_yaml_fields, document_node.
  assert (Ht : node_truthy (mapping_node m) = truthy_dict (Some m)).
  { simpl. now rewrite length_map, length_map_to_list. }
  rewrite Ht. destruct (negb (truthy_dict (Some m))); [reflexivity|].
  apply (check_fields_mapping m REQUIRED_YAML_FIELDS []).
Qed.

Lemma analyze_file_any_typed re_match safe_load name path read :
  let fd := analyze_file re_match safe_load name path read in
  analyze_file_any re_match (typed_loader safe_load) name path read
  = Analysed {| l_filename := filename fd;
                l_filepath := filepath fd;
                l_frontmatter := document_node (yaml_frontmatter fd);
                l_headers := headers fd;
                l_valid := yaml_valid fd;
                l_errors := yaml_errors fd;
                l_missing := missing_required_fields fd |}.
Proof.
  destruct read as [e|content]; [reflexivity|].
  unfold analyze_file, analyze_file_any.
  assert (E : extract_yaml_frontmatter_any re_match (typed_loader safe_load)
                content
              = inr (document_node
                       (fst (extract_yaml_frontmatter re_match safe_load content)),
                     snd (extract_yaml_frontmatter re_match safe_load content))).
  { unfold extract_yaml_frontmatter_any, extract_yaml_frontmatter, typed_loader.
    destruct (negb _); [reflexivity|].
    destruct (re_match content) as [text|]; [|reflexivity].
    now destruct (safe_load text). }
  rewrite E. destruct (extract_yaml_frontmatter re_match safe_load content)
    as [d errs].
  cbn [fst snd]. rewrite validate_yaml_fields_any_typed. reflexivity.
Qed.

(** X3. Whatever the regular expression matches and whatever the YAML
    loader does with the text (it returns any object the safe loader
    constructs: [None], a boolean, an integer, a float, a string, bytes, a
    date, a list, a list of pairs, a set or a mapping; or it raises a
    [YAMLError]; or it raises another exception): when [analyze_file]
    returns, the analysis carries at most one YAML error; an analysis with
    an error has no front matter and all ten fields missing; it is valid
    exactly when no required field is reported missing; and a valid analysis
    carries a mapping in which the ten required fields are present and not
    [None].  The only exception [analyze_file] raises itself is [TypeError],
    and only on a loaded document that is truthy and is not a mapping; any
    other exception is one the loader raised, passed on. *)
Theorem analyze_file_invariants
    (re_match : string -> option string) (safe_load : string -> load_result)
    (name path : string) (read : string + string) :
  (forall a, analyze_file_any re_match safe_load name path read = Analysed a ->
     length (l_errors a) <= 1
     /\ (l_errors a <> [] ->
         l_frontmatter a = NNone /\ l_missing a = REQUIRED_YAML_FIELDS)
     /\ (l_valid a = true <-> l_missing a = [])
     /\ (l_valid a = true ->
         exists entries,
           l_frontmatter a = NMap entries
           /\ forall f, In f REQUIRED_YAML_FIELDS ->
                exists v, node_lookup entries f = Some v /\ v <> NNone))
  /\ (forall e, analyze_file_any re_match safe_load name path read = Raises e ->
       e = TypeError
       /\ exists content text doc,
            read = inr content /\ re_match content = Some text
            /\ safe_load text = Loaded doc
            /\ node_truthy doc = true /\ forall entries, doc <> NMap entries)
  /\ (forall raised,
       analyze_file_any re_match safe_load name path read = LoaderRaises raised ->
       exists content text,
         read = inr content /\ re_match content = Some text
         /\ safe_load text = OtherException raised).
Proof.
  destruct read as [err|content]; simpl.
  { split; [|split; discriminate]. intros a [= <-]. simpl.
    repeat split; auto; discriminate. }
  pose proof (extract_yaml_frontmatter_any_cases re_match safe_load content) as Hc.
  destruct (extract_yaml_frontmatter_any re_match safe_load content)
    as [raised|[d errs]].
  { split; [discriminate|]. split; [discriminate|].
    intros r [= <-]. destruct Hc as (text & Hm & Hl). eauto. }
  split; [|split; [|destruct (validate_yaml_fields_any d); discriminate]].
  - destruct (validate_yaml_fields_any d) as [missing|] eqn:Hv; [|discriminate].
    intros a [= <-]. simpl.
    destruct Hc as [[-> _] | [-> Hlen]].
    + split; [simpl; lia|]. split; [congruence|]. simpl.
      rewrite Nat.eqb_eq, length_zero_iff_nil. split; [tauto|].
      intros ->. now apply validate_yaml_fields_any_nil.
    + injection Hv as <-. split; [lia|]. split; [auto|].
      destruct errs; [discriminate|]. simpl. split; [split|]; discriminate.
  - destruct (validate_yaml_fields_any d) as [missing|e'] eqn:Hv; [discriminate|].
    intros e [= <-].
    destruct (validate_yaml_fields_any_raises _ _ Hv) as (-> & Ht & Hnot).
    split; [reflexivity|].
    destruct Hc as [[_ (text & Hm & Hl)] | [-> _]]; [|discriminate].
    exists content, text, d. auto.
Qed.

Lemma analyze_file_invariants_witness :
  (exists a,
     analyze_file_any (fun _ => Some "just text") (fun text => Loaded (NStr text))
       "t.md" "t.md" (inr "---") = Analysed a
     /\ length (l_errors a) <= 1
     /\ (l_valid a = true <-> l_missing a = []))
  /\ analyze_file_any (fun _ => Some "3.5")
       (fun _ => Loaded (NFloat (FFinite (7 # 2))))
       "t.md" "t.md" (inr "---") = Raises TypeError.
Proof.
  split.
  - eexists. split; [vm_compute; reflexivity|].
    destruct (proj1 (analyze_file_invariants (fun _ => Some "just text")
                       (fun text => Loaded (NStr text)) "t.md" "t.md" (inr "---"))
                _ eq_refl) as (Hlen & _ & Hvalid & _).
    split; [exact Hlen | exact Hvalid].
  - destruct (analyze_file_any (fun _ => Some "3.5")
                (fun _ => Loaded (NFloat (FFinite (7 # 2))))
                "t.md" "t.md" (inr "---")) as [a|e|r] eqn:E;
      [vm_compute in E; discriminate | | vm_compute in E; discriminate].
    destruct (proj1 (proj2 (analyze_file_invariants (fun _ => Some "3.5")
                              (fun _ => Loaded (NFloat (FFinite (7 # 2))))
                              "t.md" "t.md" (inr "---"))) e E) as [-> _].
    reflexivity.
Defined.

(** What validity means for a file that went through [analyze_file]. *)
Lemma analysed_valid fd :
  from_analyze_file fd -> yaml_valid fd = true ->
  exists m, yaml_frontmatter fd = Some m
            /\ yaml_errors fd = []
            /\ forall f, In f REQUIRED_YAML_FIELDS ->
                         exists v, m !! f = Some v /\ v <> VNone.
Proof.
  intros (rm & sl & name & path & read & ->). destruct read as [e|content];
    simpl; [discriminate|].
  destruct (extract_yaml_frontmatter rm sl content) as [d errs].
  intros Hv. apply analyze_content_valid in Hv as [-> Hm].
  apply validate_nil_iff in Hm as (m & -> & Hm). simpl. eauto.
Qed.

Lemma analysed_valid_admitted fd :
  from_analyze_file fd -> admitted fd = yaml_valid fd.
Proof.
  intros Hfd. unfold admitted. destruct (yaml_valid fd) eqn:Hv; [|reflexivity].
  destruct (analysed_valid fd Hfd Hv) as (m & Hm & _ & Hall).
  destruct (Hall "phase") as (v & Hphase & _); [now left|].
  rewrite Hm. simpl andb. eapply truthy_dict_lookup, Hphase.
Qed.

Lemma dict_get_Some m f v dflt : m !! f = Some v -> dict_get m f dflt = v.
Proof. unfold dict_get. now intros ->. Qed.

Lemma admitted_tasks_In files t :
  In t (admitted_tasks files) <-> exists fd, In fd files /\ task_of fd = Some t.
Proof.
  induction files as [|fd files IH]; simpl.
  - split; [tauto | intros (fd & [] & _)].
  - destruct (task_of fd) as [t'|] eqn:E; simpl; rewrite IH; split.
    + intros [<- | (fd' & Hin & Ht)]; eauto.
    + intros (fd' & [<- | Hin] & Ht); [left; congruence | eauto].
    + intros (fd' & Hin & Ht). eauto.
    + intros (fd' & [<- | Hin] & Ht); [congruence | eauto].
Qed.

Lemma filter_ext_Forall {A : Type} (P : A -> Prop) (f g : A -> bool) l :
  Forall P l -> (forall x, P x -> f x = g x) ->
  List.filter f l = List.filter g l.
Proof.
  intros Hall Hfg. induction Hall as [|x l Hx _ IH]; simpl; [reflexivity|].
  rewrite (Hfg x Hx), IH. reflexivity.
Qed.

(** X4. In a file that [analyze_file] marks valid, the front matter is
    present and non-empty, so the record passes the builder's entry filter,
    and the seven fields the builder reads are taken from the front matter:
    the defaults ["Unknown"] and [None] are never substituted, and no field
    of the task is [None]. *)
Theorem valid_file_needs_no_default (fd : FileAnalysis) :
  from_analyze_file fd -> yaml_valid fd = true ->
  exists m,
    yaml_frontmatter fd = Some m
    /\ admitted fd = true
    /\ let t := extract_task_info fd m in
       m !! "task_id" = Some (task_id t)
       /\ m !! "title" = Some (title t)
       /\ m !! "phase" = Some (phase t)
       /\ m !! "step" = Some (step t)
       /\ m !! "agent" = Some (agent t)
       /\ m !! "previous_task" = Some (previous_task t)
       /\ m !! "next_task" = Some (next_task t)
       /\ Forall (fun v => v <> VNone)
            [task_id t; title t; phase t; step t; agent t;
             previous_task t; next_task t].
Proof.
  intros Hfd Hv. destruct (analysed_valid fd Hfd Hv) as (m & Hm & _ & Hall).
  exists m. split; [assumption|]. split.
  { now rewrite analysed_valid_admitted. }
  assert (Hget : forall f dflt, In f REQUIRED_YAML_FIELDS ->
            m !! f = Some (dict_get m f dflt) /\ dict_get m f dflt <> VNone).
  { intros f dflt Hf. destruct (Hall f Hf) as (v & Hlook & Hne).
    rewrite (dict_get_Some _ _ _ _ Hlook). auto. }
  simpl. unfold REQUIRED_YAML_FIELDS in Hget.
  repeat split; try (apply Hget; simpl; tauto).
  repeat (constructor; [apply Hget; simpl; tauto|]). constructor.
Qed.

Lemma valid_file_needs_no_default_witness :
  exists m,
    yaml_frontmatter file_self = Some m
    /\ admitted file_self = true
    /\ let t := extract_task_info file_self m in
       m !! "task_id" = Some (task_id t)
       /\ m !! "title" = Some (title t)
       /\ m !! "phase" = Some (phase t)
       /\ m !! "step" = Some (step t)
       /\ m !! "agent" = Some (agent t)
       /\ m !! "previous_task" = Some (previous_task t)
       /\ m !! "next_task" = Some (next_task t)
       /\ Forall (fun v => v <> VNone)
            [task_id t; title t; phase t; step t; agent t;
             previous_task t; next_task t].
Proof.
  apply (valid_file_needs_no_default file_self file_self_from_analyze_file).
  reflexivity.
Defined.

(** X5. On the output of [analyze_file] the builder's entry filter is the
    validity flag alone: [total_tasks] is the number of valid files, and no
    record of the graph has [None] as its phase, task id or either
    reference. *)
Theorem build_on_analysed_files (files : list FileAnalysis) (g : workflow_data) :
  Forall from_analyze_file files ->
  _build_workflow_data files = Ok g ->
  total_tasks (stats g) = valid_files files
  /\ forall t, In t (flatten (phases g)) ->
       phase t <> VNone /\ task_id t <> VNone
       /\ previous_task t <> VNone /\ next_task t <> VNone.
Proof.
  intros Hall H. destruct (build_spec _ _ H) as (_ & Hp & Ht & _). split.
  - rewrite Ht, length_admitted_tasks. unfold valid_files. f_equal.
    apply (filter_ext_Forall from_analyze_file); [assumption|].
    apply analysed_valid_admitted.
  - intros t Hin. apply (Permutation_in _ Hp) in Hin.
    apply admitted_tasks_In in Hin as (fd & Hfd & Htask).
    rewrite List.Forall_forall in Hall. specialize (Hall fd Hfd).
    destruct (task_of_Some _ _ Htask) as (Ha & m & Hm & ->).
    assert (Hv : yaml_valid fd = true).
    { unfold admitted in Ha. now apply andb_true_iff in Ha. }
    destruct (analysed_valid fd Hall Hv) as (m' & Hm' & _ & Hfields).
    assert (m' = m) as -> by congruence.
    assert (Hget : forall f dflt, In f REQUIRED_YAML_FIELDS ->
              dict_get m f dflt <> VNone).
    { intros f dflt Hf. destruct (Hfields f Hf) as (v & Hlook & Hne).
      now rewrite (dict_get_Some _ _ _ _ Hlook). }
    unfold REQUIRED_YAML_FIELDS in Hget.
    simpl. repeat split; apply Hget; simpl; tauto.
Qed.

Lemma build_on_analysed_files_witness :
  exists g, _build_workflow_data [file_self] = Ok g
            /\ total_tasks (stats g) = valid_files [file_self].
Proof.
  destruct (_build_workflow_data [file_self]) as [g|e] eqn:E;
    [|vm_compute in E; discriminate].
  exists g. split; [reflexivity|].
  apply (build_on_analysed_files [file_self] g); [|exact E].
  constructor; [exact file_self_from_analyze_file | constructor].
Defined.

(** ** Export data *)

Lemma filter_length_split {A : Type} (f : A -> bool) l :
  length (List.filter f l) + length (List.filter (fun x => negb (f x)) l)
  = length l.
Proof.
  induction l as [|a l IH]; simpl; [reflexivity|].
  destruct (f a); simpl; lia.
Qed.





Lemma ratio_bounds v t :
  v <= t -> 0 < t ->
  let q := (inject_Z (Z.of_nat v) / inject_Z (Z.of_nat t) * 100)%Q in
  (0 <= q)%Q /\ (q <= 100)%Q /\ ((q == 100)%Q <-> v = t).
Proof.
  intros Hle Hpos. destruct t as [|n]; [lia|].
  unfold Qdiv, Qinv, Qmult, Qle, Qeq, inject_Z. simpl Qnum. simpl Qden.
  rewrite Pos.mul_1_l, Pos.mul_1_r, Zpos_P_of_succ_nat. repeat split; lia.
Qed.

(** X7. The success rate [valid_files / total_files * 100] raises
    [ZeroDivisionError] exactly when no file was analysed; otherwise it is a
    value between 0 and 100, and it is 100 exactly when every file is
    valid. *)
Theorem success_rate_range (files : list FileAnalysis) :
  (success_rate files = Raise ZeroDivisionError <-> files = [])
  /\ (files <> [] ->
      exists q, success_rate files = Ok q
                /\ (0 <= q)%Q /\ (q <= 100)%Q
                /\ ((q == 100)%Q <-> Forall (fun fd => yaml_valid fd = true) files)).
Proof.
  unfold success_rate, truediv, total_files, valid_files.
  destruct files as [|fd files].
  - split; [split; reflexivity | congruence].
  - set (l := fd :: files). split; [split; discriminate|]. intros _.
    change (Nat.eqb (length l) 0) with false. cbv iota. simpl bind.
    eexists. split; [reflexivity|].
    pose proof (filter_length_split yaml_valid l) as Hsplit.
    destruct (ratio_bounds (length (List.filter yaml_valid l)) (length l))
      as (H0 & H100 & Heq); [lia | simpl; lia |].
    split; [exact H0|]. split; [exact H100|].
    etransitivity; [exact Heq|]. split.
    + intros Hlen. apply List.Forall_forall. intros x Hx.
      destruct (yaml_valid x) eqn:Ev; [reflexivity|]. exfalso.
      assert (Hin : In x (List.filter (fun x => negb (yaml_valid x)) l)).
      { apply filter_In. split; [assumption|]. now rewrite Ev. }
      assert (0 < length (List.filter (fun x => negb (yaml_valid x)) l)).
      { destruct (List.filter (fun x => negb (yaml_valid x)) l);
          [destruct Hin | simpl; lia]. }
      lia.
    + intros Hall. f_equal.
      clear -Hall. induction Hall as [|x l0 Hx _ IH]; simpl; [reflexivity|].
      rewrite Hx. simpl. congruence.
Qed.

Lemma success_rate_range_witness :
  exists q, success_rate sample_files = Ok q /\ (0 <= q)%Q /\ (q <= 100)%Q.
Proof.
  destruct (proj2 (success_rate_range sample_files)) as (q & Hq & H0 & H100 & _).
  - discriminate.
  - exists q. split; [exact Hq|]. split; [exact H0 | exact H100].
Defined.

(** ** When the builder returns, and what it raises *)

Lemma existsb_Permutation {A : Type} (f : A -> bool) l l' :
  Permutation l l' -> existsb f l = existsb f l'.
Proof.
  induction 1 as [|x l l' _ IH|x y l|l l' l'' _ IH1 _ IH2]; simpl.
  - reflexivity.
  - now rewrite IH.
  - destruct (f x), (f y); reflexivity.
  - congruence.
Qed.

Lemma forallb_Permutation {A : Type} (f : A -> bool) l l' :
  Permutation l l' -> forallb f l = forallb f l'.
Proof.
  induction 1 as [|x l l' _ IH|x y l|l l' l'' _ IH1 _ IH2]; simpl.
  - reflexivity.
  - now rewrite IH.
  - destruct (f x), (f y); reflexivity.
  - congruence.
Qed.

(** The three-way [or] of an existence check, as a function of what the
    set lookup finds. *)
Lemma ref_check_cases ids v p :
  por (Ok (negb (truthy v))) (por (set_contains v ids) (startswith v p))
  = if negb (truthy v) then Ok true
    else if negb (hashable v) then Raise TypeError
    else if existsb (py_eq v) ids then Ok true
    else startswith v p.
Proof.
  unfold por, set_contains. simpl.
  destruct (negb (truthy v)); [reflexivity|].
  destruct (hashable v); simpl; [|reflexivity].
  destruct (existsb _ ids); reflexivity.
Qed.

Lemma ref_check_returns ids v p :
  (exists b, por (Ok (negb (truthy v)))
                 (por (set_contains v ids) (startswith v p)) = Ok b)
  <-> ref_checkable ids v = true.
Proof.
  rewrite ref_check_cases. unfold ref_checkable, startswith.
  destruct (negb (truthy v)); simpl; [split; eauto|].
  destruct (hashable v); simpl; [|split; [intros [? H]|]; discriminate].
  destruct (existsb _ ids); simpl; [split; eauto|].
  destruct v; simpl; split; eauto; try discriminate; intros [? H]; discriminate.
Qed.


Lemma checks_return_iff ids t :
  checks_return ids t
  <-> ref_checkable ids (previous_task t) && ref_checkable ids (next_task t) = true.
Proof.
  rewrite andb_true_iff, <- (ref_check_returns ids _ "PHASE"),
    <- (ref_check_returns ids _ "P").
  unfold checks_return, prev_exists, next_exists. split.
  - intros (p & n & Hp & Hn). eauto.
  - intros [[p Hp] [n Hn]]. eauto.
Qed.

Lemma ref_checkable_Permutation ids ids' v :
  Permutation ids ids' -> ref_checkable ids v = ref_checkable ids' v.
Proof.
  intros H. unfold ref_checkable. now rewrite (existsb_Permutation _ _ _ H).
Qed.

(** The facts a run needs about the locals after the first loop. *)
Lemma scan_result files st :
  for_each scan_file files scan_init = Ok st ->
  Permutation (flatten (s_phases st)) (admitted_tasks files)
  /\ Permutation (map task_id (flatten (s_phases st)))
                 (map task_id (admitted_tasks files))
  /\ Forall (fun t => hashable (phase t) = true) (admitted_tasks files).
Proof.
  intros H. destruct (scan_loop_inv _ _ _ H grouped_nil) as (_ & Hp & _ & _ & Hh).
  simpl in Hp. split; [assumption|]. split; [|assumption].
  now apply Permutation_map.
Qed.

Lemma buildable_returns files :
  buildable files = true -> exists g, _build_workflow_data files = Ok g.
Proof.
  unfold buildable. rewrite !andb_true_iff, !forallb_forall.
  intros [[Hph Hid] Href].
  destruct (scan_loop_returns files scan_init) as [st Hscan].
  { apply List.Forall_forall. exact Hph. }
  destruct (scan_result _ _ Hscan) as (Hp & Hpid & _).
  unfold _build_workflow_data. rewrite Hscan. simpl.
  unfold all_task_ids. fold (flatten (s_phases st)).
  rewrite (forallb_Permutation _ _ _ Hpid).
  replace (forallb hashable (map task_id (admitted_tasks files))) with true
    by (symmetry; now apply forallb_forall).
  simpl. rewrite check_phases_concat. fold (flatten (s_phases st)).
  destruct (check_loop_returns (map task_id (flatten (s_phases st)))
              (flatten (s_phases st)) []) as [orph Horph].
  { apply List.Forall_forall. intros t Ht. apply checks_return_iff.
    rewrite !(ref_checkable_Permutation _ _ _ Hpid).
    apply Href. eapply Permutation_in; eassumption. }
  rewrite Horph. simpl. rewrite compute_completion_rate_eq. simpl. eauto.
Qed.

Lemma returns_buildable files g :
  _build_workflow_data files = Ok g -> buildable files = true.
Proof.
  intros H.
  destruct (build_inv _ _ H) as (st & ids & Hscan & Hids & Hph & _ & Hret & _).
  destruct (scan_result _ _ Hscan) as (Hp & Hpid & Hh).
  apply all_task_ids_Ok in Hids as [-> Hhash].
  rewrite Hph in Hret.
  unfold buildable. rewrite !andb_true_iff, !forallb_forall. repeat split.
  - rewrite List.Forall_forall in Hh. exact Hh.
  - apply forallb_forall. now rewrite <- (forallb_Permutation _ _ _ Hpid).
  - intros t Ht. rewrite <- !(ref_checkable_Permutation _ _ _ Hpid).
    apply checks_return_iff. rewrite List.Forall_forall in Hret. apply Hret.
    eapply Permutation_in; [symmetry|]; eassumption.
Qed.

(** X8. The builder returns a graph exactly on the inputs where every
    admitted record has a hashable phase and task id and each of its two
    references is empty, or is hashable and either the id of an admitted
    record or a string. *)
Theorem build_returns_iff (files : list FileAnalysis) :
  (exists g, _build_workflow_data files = Ok g) <-> buildable files = true.
Proof.
  split; [intros [g H]; eapply returns_buildable, H | apply buildable_returns].
Qed.

(** X9. If an admitted record has a phase or a task id that cannot be
    hashed (a YAML list or mapping), the builder raises [TypeError]. *)
Theorem unhashable_key_raises_TypeError (files : list FileAnalysis)
    (t : task_info) :
  In t (admitted_tasks files) ->
  hashable (phase t) = false \/ hashable (task_id t) = false ->
  _build_workflow_data files = Raise TypeError.
Proof.
  intros Hin Hbad. unfold _build_workflow_data.
  destruct (for_each scan_file files scan_init) as [st|e] eqn:Hscan; simpl.
  - destruct (scan_result _ _ Hscan) as (_ & Hpid & Hh).
    rewrite List.Forall_forall in Hh. specialize (Hh t Hin).
    destruct Hbad as [Hbad|Hbad]; [congruence|].
    unfold all_task_ids. fold (flatten (s_phases st)).
    rewrite (forallb_Permutation _ _ _ Hpid).
    destruct (forallb hashable (map task_id (admitted_tasks files))) eqn:E;
      [|reflexivity].
    rewrite forallb_forall in E. rewrite (E (task_id t)) in Hbad;
      [discriminate | now apply in_map].
  - apply for_each_raise in Hscan as (st0 & fd & _ & H).
    apply scan_file_raises in H. now subst.
Qed.

Lemma unhashable_key_raises_TypeError_witness :
  let fd := {| filename := "l.md"; filepath := "l.md";
               yaml_frontmatter :=
                 Some (front_matter [("phase", VList [VInt 1; VInt 2])]);
               headers := []; yaml_valid := true; yaml_errors := [];
               missing_required_fields := [] |} in
  _build_workflow_data [file_self; fd] = Raise TypeError.
Proof.
  intros fd.
  apply (unhashable_key_raises_TypeError [file_self; fd]
           (extract_task_info fd (front_matter [("phase", VList [VInt 1; VInt 2])]))).
  - vm_compute. right. left. reflexivity.
  - left. vm_compute. reflexivity.
Defined.



(** ** Grouping as a function of the input *)

Lemma map_id_In {A : Type} (f : A -> A) l :
  (forall x, In x l -> f x = x) -> map f l = l.
Proof.
  induction l as [|a l IH]; simpl; intros H; [reflexivity|].
  rewrite H by now left. rewrite IH; [reflexivity|]. intros x Hx. apply H. now right.
Qed.

(** With distinct keys, appending to the entry of a key touches that entry
    only. *)
Lemma dict_append_map {V : Type} key (t : V) d :
  keys_distinct (keys d) = true ->
  dict_append key t d
  = map (fun kv => (fst kv, if py_eq key (fst kv) then snd kv ++ [t] else snd kv)) d.
Proof.
  induction d as [|[k ts] d IH]; simpl; [reflexivity|].
  rewrite andb_true_iff, negb_true_iff. intros [Hk Hd].
  destruct (py_eq key k) eqn:E.
  - f_equal. symmetry. apply map_id_In. intros [k' ts'] Hin. simpl.
    destruct (py_eq key k') eqn:E'; [|reflexivity]. exfalso.
    assert (existsb (py_eq k) (keys d) = true); [|congruence].
    apply existsb_exists. exists k'. split.
    + apply (in_map fst) in Hin. exact Hin.
    + rewrite py_eq_sym in E. eapply py_eq_trans; eassumption.
  - f_equal. now apply IH.
Qed.

Lemma first_seen_snoc ks k :
  first_seen (ks ++ [k])
  = if existsb (py_eq k) (first_seen ks) then first_seen ks
    else first_seen ks ++ [k].
Proof. unfold first_seen. rewrite fold_left_app. reflexivity. Qed.

Lemma first_seen_distinct ks : keys_distinct (first_seen ks) = true.
Proof.
  induction ks as [|k ks IH] using rev_ind; [reflexivity|].
  rewrite first_seen_snoc. destruct (existsb _ _) eqn:E; [assumption|].
  now apply keys_distinct_snoc.
Qed.

Lemma first_seen_covers ks k :
  In k ks -> hashable k = true -> existsb (py_eq k) (first_seen ks) = true.
Proof.
  induction ks as [|x ks IH] using rev_ind; [intros []|].
  intros Hin Hh. rewrite first_seen_snoc. apply in_app_or in Hin.
  destruct (existsb (py_eq x) (first_seen ks)) eqn:E.
  - destruct Hin as [Hin | [<- | []]]; auto.
  - rewrite existsb_app. apply orb_true_iff.
    destruct Hin as [Hin | [<- | []]]; [left; auto|].
    right. simpl. now rewrite py_eq_refl.
Qed.

Lemma first_seen_sound ks k : In k (first_seen ks) -> In k ks.
Proof.
  induction ks as [|x ks IH] using rev_ind; [intros []|].
  rewrite first_seen_snoc. intros H. apply in_or_app.
  destruct (existsb _ _); [left; auto|].
  apply in_app_or in H as [H|H]; [left; auto | right; exact H].
Qed.

Lemma first_seen_app_prefix ks ks' :
  first_seen ks `prefix_of` first_seen (ks ++ ks').
Proof.
  induction ks' as [|k ks' IH] using rev_ind.
  - rewrite app_nil_r. reflexivity.
  - rewrite app_assoc, first_seen_snoc. destruct (existsb _ _); [assumption|].
    etransitivity; [exact IH|]. now apply prefix_app_r.
Qed.

Lemma keys_groups_by key l : keys (groups_by key l) = first_seen (map key l).
Proof.
  unfold groups_by, keys. rewrite map_map. simpl. apply map_id.
Qed.

Lemma filter_snoc {A : Type} (f : A -> bool) l x :
  List.filter f (l ++ [x]) = List.filter f l ++ (if f x then [x] else []).
Proof. rewrite List.filter_app. simpl. now destruct (f x). Qed.

Lemma place_by_groups_by key l t :
  hashable (key t) = true ->
  place_by key t (groups_by key l) = groups_by key (l ++ [t]).
Proof.
  intros Hh. unfold place_by.
  rewrite existsb_keys, keys_groups_by.
  unfold groups_by at 3. rewrite map_app. simpl map at 2.
  rewrite first_seen_snoc.
  destruct (existsb (py_eq (key t)) (first_seen (map key l))) eqn:E.
  - rewrite dict_append_map
      by (rewrite keys_groups_by; apply first_seen_distinct).
    unfold groups_by. rewrite map_map. apply map_ext. intros k. simpl.
    rewrite filter_snoc. destruct (py_eq (key t) k);
      rewrite ?app_nil_r; reflexivity.
  - rewrite dict_append_map.
    2:{ unfold keys. rewrite map_app. fold (keys (groups_by key l)).
        rewrite keys_groups_by. simpl.
        apply keys_distinct_snoc; [apply first_seen_distinct | assumption]. }
    unfold groups_by. rewrite !map_app, map_map. simpl.
    rewrite (py_eq_refl _ Hh). f_equal.
    + apply map_ext. intros k. simpl. rewrite filter_snoc.
      destruct (py_eq (key t) k); rewrite ?app_nil_r; reflexivity.
    + f_equal. f_equal. rewrite filter_snoc, (py_eq_refl _ Hh).
      replace (List.filter (fun t0 => py_eq (key t0) (key t)) l) with (@nil task_info);
        [reflexivity|].
      symmetry. apply filter_nil_iff. intros t' Ht'.
      destruct (py_eq (key t') (key t)) eqn:E'; [|reflexivity]. exfalso.
      pose proof (first_seen_covers (map key l) (key t')
                    (in_map key _ _ Ht') (py_eq_hashable_l _ _ E')) as Hc.
      apply existsb_exists in Hc as (k' & Hk' & Heq).
      assert (existsb (py_eq (key t)) (first_seen (map key l)) = true);
        [|congruence].
      apply existsb_exists. exists k'. split; [assumption|].
      rewrite py_eq_sym in E'. eapply py_eq_trans; eassumption.
Qed.

Lemma scan_groups files : forall st st' l,
  for_each scan_file files st = Ok st' ->
  s_phases st = groups_by phase l ->
  s_phases st' = groups_by phase (l ++ admitted_tasks files).
Proof.
  induction files as [|fd files IH]; intros st st' l; simpl.
  - intros [= <-] ->. now rewrite app_nil_r.
  - destruct (task_of fd) as [t|] eqn:E.
    + rewrite (scan_file_task _ _ _ E).
      destruct (hashable (phase t)) eqn:Hh; simpl; [|discriminate].
      intros Hloop Hst. rewrite (IH _ _ (l ++ [t]) Hloop).
      * now rewrite <- app_assoc.
      * simpl. rewrite Hst. now apply (place_by_groups_by phase).
    + apply task_of_None in E. rewrite scan_file_skip by assumption. simpl.
      apply IH.
Qed.

Lemma build_groups files g :
  _build_workflow_data files = Ok g ->
  phases g = groups_by phase (admitted_tasks files).
Proof.
  intros H. destruct (build_inv _ _ H) as (st & ids & Hscan & _ & -> & _).
  apply (scan_groups files scan_init st []); [assumption | reflexivity].
Qed.

(** X11. The phase map the builder returns is the grouping of the admitted
    records by phase: one group per distinct phase, keyed by the phase as
    first written, the groups in the order in which their phases first
    occur, each group holding the records of that phase in input order. *)
Theorem phases_are_groups_by_phase (files : list FileAnalysis)
    (g : workflow_data) :
  _build_workflow_data files = Ok g ->
  phases g
  = map (fun k => (k, List.filter (fun t => py_eq (phase t) k)
                        (admitted_tasks files)))
        (first_seen (map phase (admitted_tasks files))).
Proof.
  intros H. destruct (build_inv _ _ H) as (st & ids & Hscan & _ & -> & _).
  exact (scan_groups files scan_init st [] Hscan eq_refl).
Qed.

Lemma phases_are_groups_by_phase_witness :
  exists g, _build_workflow_data sample_files = Ok g
            /\ keys (phases g) = [VStr "1"; VStr "2"]
            /\ map (fun kv => map task_id (snd kv)) (phases g)
               = [[VStr "T1"; VStr "T2"]; [VStr "T3"]].
Proof.
  destruct (_build_workflow_data sample_files) as [g|e] eqn:E;
    [|vm_compute in E; discriminate].
  exists g. split; [reflexivity|].
  rewrite (phases_are_groups_by_phase sample_files g E).
  split; vm_compute; reflexivity.
Defined.

Lemma groups_by_nonempty key l k ts :
  (forall t, In t l -> hashable (key t) = true) ->
  In (k, ts) (groups_by key l) -> ts <> [].
Proof.
  unfold groups_by. intros Hh H.
  apply in_map_iff in H as (k' & [= <- <-] & Hk).
  apply first_seen_sound, in_map_iff in Hk as (t & Hkey & Ht).
  intros Hnil.
  assert (Hin : In t (List.filter (fun t0 => py_eq (key t0) k') l)).
  { apply filter_In. split; [assumption|]. rewrite Hkey.
    apply py_eq_refl. rewrite <- Hkey. now apply Hh. }
  rewrite Hnil in Hin. destruct Hin.
Qed.

Lemma length_le_flatten d :
  (forall k ts, In (k, ts) d -> ts <> []) -> length d <= length (flatten d).
Proof.
  unfold flatten, values. induction d as [|[k ts] d IH]; simpl; intros H; [lia|].
  rewrite length_app.
  assert (ts <> []) by (apply (H k); now left).
  assert (length d <= length (concat (map snd d)))
    by (apply IH; intros k' ts' Hin; apply (H k'); now right).
  destruct ts; [congruence | simpl; lia].
Qed.

Lemma filter_length_le {A : Type} (f g : A -> bool) l :
  (forall x, In x l -> f x = true -> g x = true) ->
  length (List.filter f l) <= length (List.filter g l).
Proof.
  induction l as [|a l IH]; simpl; intros H; [lia|].
  assert (length (List.filter f l) <= length (List.filter g l))
    by (apply IH; intros x Hx; apply H; now right).
  destruct (f a) eqn:Ef.
  - rewrite (H a) by (auto; now left). simpl. lia.
  - destruct (g a); simpl; lia.
Qed.

Lemma prev_exists_false_truthy ids t :
  prev_exists ids t = Ok false -> truthy (previous_task t) = true.
Proof.
  unfold prev_exists. rewrite ref_check_cases.
  destruct (truthy (previous_task t)); [reflexivity | discriminate].
Qed.

Lemma next_exists_false_truthy ids t :
  next_exists ids t = Ok false -> truthy (next_task t) = true.
Proof.
  unfold next_exists. rewrite ref_check_cases.
  destruct (truthy (next_task t)); [reflexivity | discriminate].
Qed.

Lemma is_orphan_connected ids t : is_orphan ids t = true -> connected t = true.
Proof.
  unfold is_orphan, connected.
  destruct (prev_exists ids t) as [p|] eqn:Ep; [|discriminate].
  destruct (next_exists ids t) as [n|] eqn:En; [|discriminate].
  destruct p.
  - destruct n; [discriminate|]. intros _.
    rewrite (next_exists_false_truthy _ _ En). apply orb_true_r.
  - intros _. now rewrite (prev_exists_false_truthy _ _ Ep).
Qed.

(** X12. The statistics of a built graph are ordered: there are no more
    orphaned records than connected ones, no more connected ones than
    tasks, and no more phases than tasks, since no phase group is empty.
    Every orphaned record has a non-empty reference; a record with both
    references empty is never orphaned. *)
Theorem statistics_are_ordered (files : list FileAnalysis) (g : workflow_data) :
  _build_workflow_data files = Ok g ->
  orphaned_tasks (stats g) <= connected_tasks (stats g)
  /\ connected_tasks (stats g) <= total_tasks (stats g)
  /\ phases_count (stats g) <= total_tasks (stats g)
  /\ (forall k ts, In (k, ts) (phases g) -> ts <> [])
  /\ (forall t, In t (orphaned g) -> connected t = true).
Proof.
  intros H.
  destruct (build_spec _ _ H) as (_ & Hp & Ht & _ & Hc & Ho & Hn).
  destruct (build_ids _ _ H) as (ids & _ & _ & Horph).
  destruct (build_inv _ _ H) as (st & _ & Hscan & _).
  destruct (scan_result _ _ Hscan) as (_ & _ & Hh).
  rewrite List.Forall_forall in Hh.
  assert (Hne : forall k ts, In (k, ts) (phases g) -> ts <> []).
  { rewrite (build_groups _ _ H). intros k ts. now apply groups_by_nonempty. }
  split; [|split; [|split; [|split]]].
  - rewrite Ho, Hc, Horph.
    rewrite <- (Permutation_length (filter_Permutation_bool connected _ _ Hp)).
    apply filter_length_le. intros t _. apply is_orphan_connected.
  - rewrite Hc, Ht. apply List.filter_length_le.
  - rewrite Hn, Ht, <- (Permutation_length Hp). now apply length_le_flatten.
  - exact Hne.
  - intros t Hin. rewrite Horph in Hin. apply filter_In in Hin as [_ Hin].
    eapply is_orphan_connected, Hin.
Qed.

Lemma statistics_are_ordered_witness :
  exists g, _build_workflow_data sample_files = Ok g
            /\ orphaned_tasks (stats g) <= connected_tasks (stats g)
            /\ connected_tasks (stats g) <= total_tasks (stats g)
            /\ phases_count (stats g) <= total_tasks (stats g).
Proof.
  destruct (_build_workflow_data sample_files) as [g|e] eqn:E;
    [|vm_compute in E; discriminate].
  exists g. split; [reflexivity|].
  destruct (statistics_are_ordered sample_files g E) as (H1 & H2 & H3 & _).
  split; [exact H1|]. split; [exact H2 | exact H3].
Defined.

(** X13. Appending files keeps what is there: the phase keys of the graph
    of [xs] are the first keys of the graph of [xs ++ ys], in the same
    order, and each phase group of the former is an initial part of the
    group with the same key in the latter. *)
Theorem appending_files_extends_phases (xs ys : list FileAnalysis)
    (g g' : workflow_data) :
  _build_workflow_data xs = Ok g ->
  _build_workflow_data (xs ++ ys) = Ok g' ->
  keys (phases g) `prefix_of` keys (phases g')
  /\ forall k ts, In (k, ts) (phases g) ->
       exists ts', In (k, ts') (phases g') /\ ts `prefix_of` ts'.
Proof.
  intros H H'. rewrite (build_groups _ _ H), (build_groups _ _ H').
  rewrite admitted_tasks_app. split.
  - rewrite !keys_groups_by, map_app. apply first_seen_app_prefix.
  - intros k ts Hin. unfold groups_by in Hin.
    apply in_map_iff in Hin as (k' & [= <- <-] & Hk).
    eexists. split.
    + unfold groups_by. apply in_map_iff. exists k'. split; [reflexivity|].
      rewrite map_app.
      destruct (first_seen_app_prefix (map phase (admitted_tasks xs))
                  (map phase (admitted_tasks ys))) as [rest ->].
      apply in_or_app. now left.
    + rewrite List.filter_app. now apply prefix_app_r.
Qed.

Lemma appending_files_extends_phases_witness :
  exists g g', _build_workflow_data [file_self] = Ok g
               /\ _build_workflow_data ([file_self] ++ [file_dangling]) = Ok g'
               /\ keys (phases g) `prefix_of` keys (phases g').
Proof.
  destruct (_build_workflow_data [file_self]) as [g|e] eqn:E;
    [|vm_compute in E; discriminate].
  destruct (_build_workflow_data ([file_self] ++ [file_dangling])) as [g'|e] eqn:E';
    [|vm_compute in E'; discriminate].
  exists g, g'. split; [reflexivity|]. split; [reflexivity|].
  exact (proj1 (appending_files_extends_phases [file_self] [file_dangling] g g' E E')).
Defined.

(** ** Resolution of references *)

Lemma prefix_PHASE_P s : String.prefix "PHASE" s = true -> String.prefix "P" s = true.
Proof.
  destruct s as [|c s]; [discriminate|]. cbn [String.prefix].
  destruct (Ascii.ascii_dec _ c); [|discriminate]. intros _. now destruct s.
Qed.

Lemma ref_check_mono ids ids' v p :
  (existsb (py_eq v) ids = true -> existsb (py_eq v) ids' = true) ->
  por (Ok (negb (truthy v))) (por (set_contains v ids) (startswith v p)) = Ok true ->
  por (Ok (negb (truthy v))) (por (set_contains v ids') (startswith v p)) = Ok true.
Proof.
  rewrite !ref_check_cases. intros Hsub.
  destruct (negb (truthy v)); [auto|].
  destruct (negb (hashable v)); [auto|].
  destruct (existsb (py_eq v) ids).
  - now rewrite Hsub.
  - destruct (existsb (py_eq v) ids'); auto.
Qed.

(** X14. The successor check accepts whatever the predecessor check
    accepts: if a reference value resolves as [previous_task] of a record,
    the same value resolves as [next_task] of any record.  In particular a
    string starting with ["PHASE"] resolves in both positions whatever the
    task ids are. *)
Theorem next_check_is_more_permissive (ids : list value) (t1 t2 : task_info) :
  next_task t2 = previous_task t1 ->
  (prev_exists ids t1 = Ok true -> next_exists ids t2 = Ok true)
  /\ (forall s, previous_task t1 = VStr s -> String.prefix "PHASE" s = true ->
                prev_exists ids t1 = Ok true /\ next_exists ids t2 = Ok true).
Proof.
  intros E.
  assert (Himp : prev_exists ids t1 = Ok true -> next_exists ids t2 = Ok true).
  { unfold prev_exists, next_exists. rewrite E, !ref_check_cases.
    destruct (negb (truthy (previous_task t1))); [auto|].
    destruct (negb (hashable (previous_task t1))); [auto|].
    destruct (existsb _ ids); [auto|].
    unfold startswith. destruct (previous_task t1); try discriminate.
    intros [= H]. now rewrite prefix_PHASE_P. }
  split; [exact Himp|]. intros s Hs Hpre.
  assert (Hprev : prev_exists ids t1 = Ok true).
  { unfold prev_exists. rewrite ref_check_cases, Hs. simpl.
    destruct (negb (negb _)); [reflexivity|].
    destruct (existsb _ ids); [reflexivity | now rewrite Hpre]. }
  auto.
Qed.

Lemma next_check_is_more_permissive_witness :
  let t := extract_task_info file_self
             (complete_front_matter (VStr "T3") (VStr "2") (VStr "T3") (VStr "T3")) in
  next_task t = previous_task t
  /\ prev_exists [VStr "T3"] t = Ok true
  /\ next_exists [VStr "T3"] t = Ok true.
Proof.
  intros t. split; [reflexivity|]. split; [reflexivity|].
  exact (proj1 (next_check_is_more_permissive [VStr "T3"] t t eq_refl) eq_refl).
Defined.

(** X15. Adding files never turns a resolved record into an orphan: a
    record of the graph of [xs] that is orphaned in the graph of
    [xs ++ ys] is orphaned in the graph of [xs] already. *)
Theorem appending_files_adds_no_orphan (xs ys : list FileAnalysis)
    (g g' : workflow_data) (t : task_info) :
  _build_workflow_data xs = Ok g ->
  _build_workflow_data (xs ++ ys) = Ok g' ->
  In t (flatten (phases g)) ->
  In t (orphaned g') ->
  In t (orphaned g).
Proof.
  intros H H' Hin Ho'.
  destruct (build_ids _ _ H) as (ids & Hids & Hret & Ho).
  destruct (build_ids _ _ H') as (ids' & Hids' & Hret' & Ho2).
  rewrite Ho. rewrite Ho2 in Ho'. apply filter_In in Ho' as [Hin' Horph'].
  apply filter_In. split; [assumption|].
  rewrite List.Forall_forall in Hret, Hret'.
  pose proof (Hret t Hin) as Hc. pose proof (Hret' t Hin') as Hc'.
  assert (Hsub : forall v, existsb (py_eq v) ids = true ->
                           existsb (py_eq v) ids' = true).
  { intros v Hv.
    apply all_task_ids_Ok in Hids as [-> _].
    apply all_task_ids_Ok in Hids' as [-> _].
    destruct (build_spec _ _ H) as (_ & Hp & _).
    destruct (build_spec _ _ H') as (_ & Hp' & _).
    rewrite (existsb_Permutation _ _ _ (Permutation_map task_id Hp)) in Hv.
    rewrite (existsb_Permutation _ _ _ (Permutation_map task_id Hp')).
    rewrite admitted_tasks_app, map_app, existsb_app, Hv. reflexivity. }
  apply (is_orphan_iff _ _ Hc'), or_comm in Horph'.
  apply (is_orphan_iff _ _ Hc).
  destruct Hc as (p & n & Hp & Hn).
  destruct p, n; auto.
  - exfalso.
    pose proof (ref_check_mono ids ids' _ "PHASE" (Hsub _) Hp) as Hp'.
    pose proof (ref_check_mono ids ids' _ "P" (Hsub _) Hn) as Hn'.
    fold (prev_exists ids' t) in Hp'. fold (next_exists ids' t) in Hn'.
    destruct Horph'; congruence.
Qed.

Lemma appending_files_adds_no_orphan_witness :
  let t := extract_task_info file_dangling
             (complete_front_matter (VStr "T1") (VStr "1") (VStr "T99") (VStr "")) in
  exists g g', _build_workflow_data [file_dangling] = Ok g
               /\ _build_workflow_data ([file_dangling] ++ [file_self]) = Ok g'
               /\ In t (orphaned g).
Proof.
  intros t.
  destruct (_build_workflow_data [file_dangling]) as [g|e] eqn:E;
    [|vm_compute in E; discriminate].
  destruct (_build_workflow_data ([file_dangling] ++ [file_self])) as [g'|e] eqn:E';
    [|vm_compute in E'; discriminate].
  exists g, g'. split; [reflexivity|]. split; [reflexivity|].
  apply (appending_files_adds_no_orphan [file_dangling] [file_self] g g' t E E').
  - vm_compute in E. injection E as <-. left. reflexivity.
  - vm_compute in E'. injection E' as <-. left. reflexivity.
Defined.

(** ** Steps of a phase in the workflow schema *)





(** *** Order on strings and on keys *)

Lemma ascii_compare_refl c : Ascii.compare c c = Eq.
Proof. unfold Ascii.compare. apply N.compare_refl. Qed.









(** *** [sorted] on the items of a dict *)

















(** ** Headers of a document *)

Lemma split_lines_nonempty s : split_lines s <> [].
Proof.
  destruct s as [|c s]; simpl; [discriminate|].
  destruct (is_newline c); [discriminate|].
  destruct (split_lines s); discriminate.
Qed.

Lemma split_lines_app a b :
  split_lines (String.append a (String.append newline b))
  = split_lines a ++ split_lines b.
Proof.
  induction a as [|c a IH]; simpl.
  - reflexivity.
  - rewrite IH. destruct (is_newline c); [reflexivity|].
    pose proof (split_lines_nonempty a) as Hne.
    destruct (split_lines a); [congruence | reflexivity].
Qed.

(** X18. Headers are found line by line: the headers of two texts joined
    by a newline are the headers of the first followed by the headers of the
    second, so they come in document order and a line never affects the
    header taken from another line. *)
Theorem extract_headers_line_by_line (a b : string) :
  extract_headers (String.append a (String.append newline b))
  = extract_headers a ++ extract_headers b.
Proof.
  unfold extract_headers. now rewrite split_lines_app, List.filter_app, map_app.
Qed.

Lemma no_double_hash_tail c s :
  no_double_hash (String c s) = true -> no_double_hash s = true.
Proof.
  simpl. destruct s as [|c' s]; [reflexivity|].
  rewrite andb_true_iff. tauto.
Qed.

Lemma remove_double_hash_keeps c s :
  is_hash c = false ->
  exists r, remove_double_hash (String c s) = String c r.
Proof.
  intros Hc. simpl. destruct s as [|c' s]; [eauto|]. rewrite Hc. simpl. eauto.
Qed.

Lemma no_double_hash_cons c r :
  no_double_hash r = true ->
  (is_hash c = true -> match r with String c' _ => is_hash c' = false | _ => True end) ->
  no_double_hash (String c r) = true.
Proof.
  intros Hr Hc. simpl. destruct r as [|c' r']; [reflexivity|].
  rewrite Hr, andb_true_r. destruct (is_hash c); [|reflexivity].
  now rewrite Hc.
Qed.

Lemma no_double_hash_remove s : no_double_hash (remove_double_hash s) = true.
Proof.
  (* by induction on the length: a pair of hashes skips two characters *)
  assert (H : forall n s, String.length s <= n ->
                          no_double_hash (remove_double_hash s) = true).
  { clear s. induction n as [|n IH]; intros [|c [|c' s]] Hlen;
      try reflexivity; try (simpl in Hlen; lia).
    change (remove_double_hash (String c (String c' s)))
      with (if is_hash c && is_hash c' then remove_double_hash s
            else String c (remove_double_hash (String c' s))).
    simpl in Hlen.
    destruct (is_hash c && is_hash c') eqn:E.
    - apply IH. lia.
    - apply no_double_hash_cons.
      + apply IH. simpl. lia.
      + intros Hc. rewrite Hc in E. simpl in E.
        destruct (remove_double_hash_keeps c' s E) as [r ->]. exact E. }
  apply (H (String.length s)). lia.
Qed.

Lemma space_prefix_le s : space_prefix s <= String.length s.
Proof.
  destruct s as [|c1 [|c2 [|c3 s]]]; simpl; try lia.
  - destruct (is_space c1); lia.
  - destruct (is_space c1); [lia|]. destruct (is_space2 c1 c2); lia.
  - destruct (is_space c1); [lia|]. destruct (is_space2 c1 c2); [lia|].
    destruct (is_space3 c1 c2 c3); lia.
Qed.

Lemma space_prefix_app a b :
  0 < space_prefix a -> space_prefix (String.append a b) = space_prefix a.
Proof.
  destruct a as [|c1 [|c2 [|c3 a]]]; simpl; try lia; try reflexivity.
  - destruct (is_space c1); [reflexivity | lia].
  - destruct (is_space c1); [reflexivity|].
    destruct (is_space2 c1 c2); [reflexivity | lia].
Qed.

Lemma lstrip_eq s :
  lstrip s
  = match s with
    | EmptyString => EmptyString
    | String _ s1 =>
        match space_prefix s with
        | 0 => s
        | 1 => lstrip s1
        | 2 => match s1 with String _ s2 => lstrip s2 | EmptyString => s end
        | _ => match s1 with String _ (String _ s3) => lstrip s3 | _ => s end
        end
    end.
Proof. destruct s; reflexivity. Qed.

(** [lstrip] drops characters from the left until the text starts with no
    whitespace character. *)
Lemma lstrip_rel (Q : string -> string -> Prop) :
  (forall s, space_prefix s = 0 -> Q s s) ->
  (forall c s r, Q s r -> Q (String c s) r) ->
  forall s, Q s (lstrip s).
Proof.
  intros Hbase Hstep.
  assert (H : forall n s, String.length s <= n -> Q s (lstrip s)).
  { induction n as [|n IH]; intros s Hlen.
    - destruct s; [now apply Hbase | simpl in Hlen; lia].
    - destruct s as [|c1 s1]; [now apply Hbase|]. simpl in Hlen.
      pose proof (space_prefix_le (String c1 s1)) as Hle.
      rewrite lstrip_eq.
      destruct (space_prefix (String c1 s1)) as [|[|[|k]]] eqn:E.
      + now apply Hbase.
      + apply Hstep, IH. lia.
      + destruct s1 as [|c2 s2]; [simpl in Hle; lia|].
        simpl in Hlen. apply Hstep, Hstep, IH. lia.
      + destruct s1 as [|c2 [|c3 s3]]; try (simpl in Hle; lia).
        simpl in Hlen. apply Hstep, Hstep, Hstep, IH. lia. }
  intros s. apply (H (String.length s)). lia.
Qed.

Lemma no_double_hash_lstrip s :
  no_double_hash s = true -> no_double_hash (lstrip s) = true.
Proof.
  apply (lstrip_rel (fun s r => no_double_hash s = true -> no_double_hash r = true)).
  - auto.
  - intros c u r IH H. apply IH. eapply no_double_hash_tail, H.
Qed.

Lemma space_prefix_lstrip s : space_prefix (lstrip s) = 0.
Proof. apply (lstrip_rel (fun _ r => space_prefix r = 0)); auto. Qed.

Lemma lstrip_length s :
  String.length (lstrip s) <= String.length s
  /\ (0 < space_prefix s -> String.length (lstrip s) < String.length s).
Proof.
  apply (lstrip_rel (fun s r => String.length r <= String.length s
                                /\ (0 < space_prefix s ->
                                    String.length r < String.length s))).
  - intros u Hu. split; lia.
  - intros c u r [IH _]. simpl. split; lia.
Qed.

Lemma lstrip_fixed s : lstrip s = s <-> space_prefix s = 0.
Proof.
  split.
  - intros H. destruct (space_prefix s) eqn:E; [reflexivity|]. exfalso.
    pose proof (proj2 (lstrip_length s)) as Hlt. rewrite H, E in Hlt. lia.
  - intros H. rewrite lstrip_eq, H. now destruct s.
Qed.

Lemma lstrip_space c s : is_space c = true -> lstrip (String c s) = lstrip s.
Proof. intros H. rewrite lstrip_eq. simpl space_prefix. now rewrite H. Qed.

Lemma rstrip_eq c s :
  rstrip (String c s)
  = if is_space_char (String c (rstrip s)) then EmptyString
    else String c (rstrip s).
Proof. reflexivity. Qed.

Lemma rstrip_cons c s :
  is_space_char (String c (rstrip s)) = false ->
  rstrip (String c s) = String c (rstrip s).
Proof. intros H. now rewrite rstrip_eq, H. Qed.

Lemma rstrip_prefix s : exists q, s = String.append (rstrip s) q.
Proof.
  induction s as [|c s [q IH]]; [now exists EmptyString|].
  rewrite rstrip_eq. destruct (is_space_char _).
  - now exists (String c s).
  - exists q. change (String c s = String c (String.append (rstrip s) q)).
    f_equal. exact IH.
Qed.

Lemma no_double_hash_app_l a b :
  no_double_hash (String.append a b) = true -> no_double_hash a = true.
Proof.
  induction a as [|c a IH]; [reflexivity|].
  destruct a as [|c' a]; [reflexivity|].
  simpl. simpl in IH. rewrite !andb_true_iff. intros [H1 H2]. auto.
Qed.

Lemma no_double_hash_rstrip s :
  no_double_hash s = true -> no_double_hash (rstrip s) = true.
Proof.
  destruct (rstrip_prefix s) as [q Hq]. rewrite Hq at 1.
  apply no_double_hash_app_l.
Qed.

Lemma rstrip_idem s : rstrip (rstrip s) = rstrip s.
Proof.
  induction s as [|c s IH]; [reflexivity|].
  rewrite rstrip_eq. destruct (is_space_char (String c (rstrip s))) eqn:E;
    [reflexivity|].
  now rewrite rstrip_eq, IH, E.
Qed.

Lemma space_prefix_rstrip s : space_prefix s = 0 -> space_prefix (rstrip s) = 0.
Proof.
  intros H. destruct (space_prefix (rstrip s)) eqn:E; [reflexivity|]. exfalso.
  destruct (rstrip_prefix s) as [q Hq]. rewrite Hq in H.
  rewrite space_prefix_app in H; lia.
Qed.

Lemma strip_idem s : strip (strip s) = strip s.
Proof.
  unfold strip.
  assert (H : lstrip (rstrip (lstrip s)) = rstrip (lstrip s))
    by apply lstrip_fixed, space_prefix_rstrip, space_prefix_lstrip.
  rewrite H. apply rstrip_idem.
Qed.

(** What [strip] leaves has no whitespace character at either end. *)
Lemma strip_ends s :
  space_prefix (strip s) = 0
  /\ forall a b, strip s = String.append a b -> is_space_char b = false.
Proof.
  unfold strip. split.
  - apply space_prefix_rstrip, space_prefix_lstrip.
  - generalize (lstrip s). clear s. intros s.
    induction s as [|c s IH]; intros a b.
    + destruct a, b; try discriminate. reflexivity.
    + rewrite rstrip_eq.
      destruct (is_space_char (String c (rstrip s))) eqn:E.
      * destruct a, b; try discriminate. reflexivity.
      * destruct a as [|c' a].
        -- change (String.append EmptyString b) with b. intros <-. exact E.
        -- change (String.append (String c' a) b)
             with (String c' (String.append a b)).
           intros [= _ H]. eapply IH, H.
Qed.

(** X19. Every extracted header is clean: it contains no ["##"] (all double
    hashes of the line are removed, not only the leading marker) and has no
    whitespace character at its start or at its end, whitespace being what
    [str.strip] removes (the Unicode spaces included): stripping it again
    changes nothing. *)
Theorem extracted_headers_are_clean (content h : string) :
  In h (extract_headers content) ->
  no_double_hash h = true
  /\ strip h = h
  /\ space_prefix h = 0
  /\ forall a b, h = String.append a b -> is_space_char b = false.
Proof.
  unfold extract_headers. intros H.
  apply in_map_iff in H as (line & <- & _). unfold header_text.
  split; [|split].
  - unfold strip at 1. apply no_double_hash_rstrip, no_double_hash_lstrip,
      no_double_hash_remove.
  - apply strip_idem.
  - apply strip_ends.
Qed.

Lemma extracted_headers_are_clean_witness :
  let wide := String (Ascii.ascii_of_nat 227)
                (String (Ascii.ascii_of_nat 128)
                   (String (Ascii.ascii_of_nat 128) EmptyString)) in
  let content := String.append "# Top"
                   (String.append newline
                      (String.append "## First ## part" wide)) in
  In "First  part" (extract_headers content)
  /\ no_double_hash "First  part" = true /\ strip "First  part" = "First  part".
Proof.
  intros wide content.
  assert (H : In "First  part" (extract_headers content))
    by (vm_compute; left; reflexivity).
  split; [exact H|].
  destruct (extracted_headers_are_clean content "First  part" H) as (H1 & H2 & _).
  split; [exact H1 | exact H2].
Defined.

Lemma split_lines_single s :
  forallb (fun c => negb (is_newline c)) (list_ascii_of_string s) = true ->
  split_lines s = [s].
Proof.
  induction s as [|c s IH]; simpl; [reflexivity|].
  rewrite andb_true_iff, negb_true_iff. intros [-> Hs]. now rewrite IH.
Qed.

Lemma remove_double_hash_pair c c' s :
  remove_double_hash (String c (String c' s))
  = if is_hash c && is_hash c' then remove_double_hash s
    else String c (remove_double_hash (String c' s)).
Proof. reflexivity. Qed.

Lemma remove_double_hash_no_hash s :
  forallb (fun c => negb (is_hash c)) (list_ascii_of_string s) = true ->
  remove_double_hash s = s.
Proof.
  induction s as [|c s IH]; [reflexivity|].
  intros H. simpl in H. apply andb_true_iff in H as [Hc Hs].
  apply negb_true_iff in Hc. specialize (IH Hs).
  destruct s as [|c' s]; [reflexivity|].
  rewrite remove_double_hash_pair, Hc, IH. reflexivity.
Qed.

Lemma forallb_weaken {A : Type} (f g : A -> bool) l :
  (forall x, f x = true -> g x = true) -> forallb f l = true -> forallb g l = true.
Proof.
  intros Hfg. rewrite !forallb_forall. auto.
Qed.

(** X20. A header line written as ["## "] followed by a title is read back
    as that title, provided the title has no ['#'], no line break and no
    whitespace at either end. *)
Theorem header_round_trip (title : string) :
  forallb (fun c => negb (is_hash c) && negb (is_newline c))
          (list_ascii_of_string title) = true ->
  lstrip title = title -> rstrip title = title ->
  extract_headers (String.append "## " title) = [title].
Proof.
  intros Hchars Hl Hr.
  assert (Hnl : forallb (fun c => negb (is_newline c)) (list_ascii_of_string title) = true).
  { eapply forallb_weaken; [|exact Hchars]. intros c Hc.
    apply andb_true_iff in Hc. tauto. }
  assert (Hnh : forallb (fun c => negb (is_hash c)) (list_ascii_of_string title) = true).
  { eapply forallb_weaken; [|exact Hchars]. intros c Hc.
    apply andb_true_iff in Hc. tauto. }
  pose (h := Ascii.ascii_of_nat 35). pose (sp := Ascii.ascii_of_nat 32).
  change (String.append "## " title) with (String h (String h (String sp title))).
  unfold extract_headers. rewrite split_lines_single by (simpl; exact Hnl).
  cbn [List.filter is_level2_header].
  change (is_hash h && is_hash h && Nat.ltb 0 (space_prefix (String sp title)))
    with true.
  cbn [map]. f_equal. unfold header_text, strip.
  destruct title as [|c title]; [reflexivity|].
  set (t := String c title) in *.
  assert (H0 : lstrip (String h (String h (String sp t)))
               = String h (String h (String sp t)))
    by (apply lstrip_fixed; reflexivity).
  assert (H1 : rstrip (String sp t) = String sp t).
  { rewrite rstrip_cons; rewrite Hr; reflexivity. }
  assert (H2 : rstrip (String h (String sp t)) = String h (String sp t)).
  { rewrite rstrip_cons; rewrite H1; reflexivity. }
  assert (H3 : rstrip (String h (String h (String sp t)))
               = String h (String h (String sp t))).
  { rewrite rstrip_cons; rewrite H2; reflexivity. }
  rewrite H0, H3, remove_double_hash_pair.
  change (is_hash h && is_hash h) with true. cbv iota.
  rewrite (remove_double_hash_no_hash (String sp t)) by (simpl; exact Hnh).
  rewrite lstrip_space by reflexivity. now rewrite Hl, Hr.
Qed.

Lemma header_round_trip_witness :
  extract_headers (String.append "## " "Scope and goals") = ["Scope and goals"].
Proof. apply header_round_trip; reflexivity. Defined.
